(** * PAKNet-AI: blueprint service, Markdown renderer and history list

    A shallow embedding of the three source files of the application:
    - [types.ts]          the [Blueprint] record;
    - [geminiService.ts]  [generateBlueprint], the single outbound call;
    - [App.tsx]           [MarkdownContent], the line-by-line renderer, and
                          [saveToHistory], the capped, deduplicated history.

    JavaScript strings are sequences of UTF-16 code units; they are modelled
    as lists of [N], so that the white-space and line-terminator classes used
    by [trim] and by the regular expressions are the ECMAScript ones. *)

From Stdlib Require Import String Ascii QArith NArith ZArith Arith Bool Lia List.
From Stdlib Require Import Sorted.
From Equations Require Import Equations.
Import ListNotations.

Local Open Scope N_scope.

(* ===================================================================== *)
(** ** JavaScript strings and the string methods the sources call        *)
(* ===================================================================== *)

Module JS.

Definition jsstring := list N.

(** A source string literal, as its code units. *)
Definition lit (s : string) : jsstring :=
  map N_of_ascii (list_ascii_of_string s).

Fixpoint eqb (s t : jsstring) : bool :=
  match s, t with
  | [], [] => true
  | c :: s', d :: t' => (c =? d) && eqb s' t'
  | _, _ => false
  end.

(** ECMAScript [LineTerminator]: LF, CR, LS, PS. *)
Definition isLineTerminator (c : N) : bool :=
  (c =? 10) || (c =? 13) || (c =? 8232) || (c =? 8233).

(** ECMAScript [WhiteSpace] and [LineTerminator]: what [trim] strips and
    what the class [\s] matches. *)
Definition isWhiteSpace (c : N) : bool :=
  (c =? 9) || (c =? 11) || (c =? 12) || (c =? 32) || (c =? 160)
  || (c =? 5760) || ((8192 <=? c) && (c <=? 8202))
  || (c =? 8239) || (c =? 8287) || (c =? 12288) || (c =? 65279)
  || isLineTerminator c.

(** The class [\d] (no unicode flag): the ten ASCII digits. *)
Definition isDigit (c : N) : bool := (48 <=? c) && (c <=? 57).

Fixpoint dropWhile (f : N -> bool) (s : jsstring) : jsstring :=
  match s with
  | [] => []
  | c :: t => if f c then dropWhile f t else s
  end.

Fixpoint takeWhile (f : N -> bool) (s : jsstring) : jsstring :=
  match s with
  | [] => []
  | c :: t => if f c then c :: takeWhile f t else []
  end.

(** [s.trim()] *)
Definition trim (s : jsstring) : jsstring :=
  rev (dropWhile isWhiteSpace (rev (dropWhile isWhiteSpace s))).

(** [s.startsWith(prefix)] *)
Fixpoint startsWith (s prefix : jsstring) {struct prefix} : bool :=
  match prefix, s with
  | [], _ => true
  | p :: ps, c :: cs => (c =? p) && startsWith cs ps
  | _ :: _, [] => false
  end.

(** [s.endsWith(suffix)] *)
Definition endsWith (s suffix : jsstring) : bool :=
  startsWith (rev s) (rev suffix).

(** [s.substring(start)] for a non-negative [start]. *)
Definition substring (s : jsstring) (start : nat) : jsstring := skipn start s.

(** [s.slice(from, to)], with the negative indices counted from the end. *)
Definition slice (s : jsstring) (from to : Z) : jsstring :=
  let len := Z.of_nat (length s) in
  let from' := if (from <? 0)%Z then Z.max (len + from) 0 else Z.min from len in
  let to' := if (to <? 0)%Z then Z.max (len + to) 0 else Z.min to len in
  let span := Z.max (to' - from') 0 in
  firstn (Z.to_nat span) (skipn (Z.to_nat from') s).

(** [s.split('\n')]: never empty, the empty string splits into one empty
    line. *)
Fixpoint split_newline (s : jsstring) : list jsstring :=
  match s with
  | [] => [[]]
  | c :: t =>
      if c =? 10 then [] :: split_newline t
      else match split_newline t with
           | l :: ls => (c :: l) :: ls
           | [] => [[c]]
           end
  end.

(** [a.join('\n')] *)
Fixpoint join_newline (a : list jsstring) : jsstring :=
  match a with
  | [] => []
  | [l] => l
  | l :: ls => l ++ 10 :: join_newline ls
  end.

(** *** The three regular expressions of the renderer *)

(** [/^\d+\./] at index 0: the greedy digits, then a dot. The result is
    what follows the dot. *)
Definition exec_ordered_marker (s : jsstring) : option jsstring :=
  match takeWhile isDigit s, dropWhile isDigit s with
  | _ :: _, 46 :: r => Some r
  | _, _ => None
  end.

(** [s.match(/^\d+\./)] used as a condition. *)
Definition match_ordered_marker (s : jsstring) : bool :=
  match exec_ordered_marker s with Some _ => true | None => false end.

(** [s.replace(/^\d+\.\s+/, '')]: the marker must be followed by at least
    one white-space character, otherwise nothing is replaced. *)
Definition replace_ordered_marker (s : jsstring) : jsstring :=
  match exec_ordered_marker s with
  | Some (c :: r) => if isWhiteSpace c then dropWhile isWhiteSpace r else s
  | _ => s
  end.

(** The lazy [.*?\*\*] after an opening [**]: the number of characters
    the dot consumes before the first closing [**] it can reach; the dot
    does not match a line terminator. *)
Fixpoint exec_lazy_close (u : jsstring) : option nat :=
  match u with
  | [] => None
  | c :: u' =>
      if startsWith u [42; 42] then Some 0%nat
      else if isLineTerminator c then None
      else option_map S (exec_lazy_close u')
  end.

(** The bold pattern (a capture group around: two stars, a lazy run of
    dots, two stars) matched at the head of [s], as the sticky match that
    [split] performs at each index: the length of the dot part. The whole
    match is four characters longer. *)
Definition exec_bold (s : jsstring) : option nat :=
  match s with
  | 42 :: 42 :: u => exec_lazy_close u
  | _ => None
  end.

(** [s.split] by the bold pattern, as the loop of the regular-expression
    split method:
    [seg] is the text between the end [p] of the last match and the
    current index [q], [s] the text from [q] on. A match pushes the
    segment and the captured group and restarts after the match; a
    failure moves [q] one code unit forward. *)
Equations? split_bold_from (seg s : jsstring) : list jsstring
  by wf (length s) lt :=
  split_bold_from seg [] := [seg];
  split_bold_from seg (c :: t) with exec_bold (c :: t) => {
    | Some k :=
        seg :: firstn (4 + k) (c :: t)
            :: split_bold_from [] (skipn (4 + k) (c :: t));
    | None := split_bold_from (seg ++ [c]) t }.
Proof.
  destruct t as [|a [|b [|d l]]]; simpl; try lia.
  rewrite length_skipn. lia.
Qed.

Definition split_bold (s : jsstring) : list jsstring := split_bold_from [] s.

End JS.

(* ===================================================================== *)
(** ** types.ts                                                           *)
(* ===================================================================== *)

Module Types.
Import JS.

Record Blueprint := {
  id : jsstring;
  deviceModel : jsstring;
  content : jsstring;
  timestamp : N
}.

End Types.

(* ===================================================================== *)
(** ** geminiService.ts                                                   *)
(* ===================================================================== *)

Module GeminiService.
Import JS.

Definition quote : N := 34.

Definition SYSTEM_INSTRUCTION : jsstring :=
  join_newline
    [ lit "You are the PakNet AI Orchestrator, an Enterprise-Level AI Network Automation and Deployment Engine.";
      lit "Role: Senior Network Architect, Security Engineer, DevOps Automation Engineer, and Infrastructure Consultant with 20+ years of experience.";
      lit "";
      lit "When a user provides a device name/model, generate a complete professional consultancy report titled "
        ++ quote :: lit "AI-Generated Enterprise Network Deployment Blueprint" ++ quote :: lit ".";
      lit "";
      lit "The output MUST be in high-quality Markdown and include these sections exactly:";
      lit "1. Device Overview (Capabilities, use cases, ideal deployment)";
      lit "2. Network Architecture Design (Text-based logical topology, physical placement)";
      lit "3. Initial Setup Process (Physical steps, console access, firmware, IP)";
      lit "4. Full Professional Configuration:";
      lit "   - Provide comprehensive, production-ready CLI configuration blocks.";
      lit "   - For VLANs: Include specific VLAN IDs, names, and port assignments.";
      lit "   - For Inter-VLAN Routing: Provide specific SVI (Switch Virtual Interface) or Sub-interface configurations with IP addressing.";
      lit "   - For DHCP: Detail the DHCP pool configuration including ranges, exclusions, DNS servers, and default gateways.";
      lit "   - Also include: DNS, NAT, ACLs, Firewall rules, SSH, SNMP, NTP, Logging, and Backup configurations.";
      lit "5. Security Hardening (Enterprise grade, RBAC, NIST/ISO 27001 alignment)";
      lit "6. AI-Based Optimization Recommendations (Traffic, QoS, Load balancing, redundancy, HA)";
      lit "7. Automation Script Section:";
      lit "   - Provide high-quality, production-ready automation examples.";
      lit "   - Detailed Explanations: Explain the logic, modules used, and intent of each script.";
      lit "   - Ansible Playbook: Include robust error handling using 'block', 'rescue', and 'always' statements. Use best-practice modules (e.g., cisco.ios.ios_config, fortinet.fortios.fortios_configuration).";
      lit "   - Python Netmiko Script: Utilize the 'ConnectHandler' as a context manager. Include comprehensive try-except blocks for 'NetmikoTimeoutException' and 'NetmikoAuthenticationException'. Demonstrate secure credential handling and configuration verification.";
      lit "   - Zero-Touch Deployment (ZTP): Provide a conceptual workflow for automated provisioning at scale.";
      lit "8. Deployment Checklist (Pre & Post)";
      lit "9. Documentation Summary (Client Handover Format)";
      lit "10. Risk Analysis & Mitigation Plan";
      lit "11. Estimated Deployment Cost (Basic vs Enterprise scale in PKR/USD)";
      lit "";
      lit "Context: Pakistan public/private sector environments. ";
      lit "Tone: Senior technical, formal, professional consultancy style. ";
      lit "Always prioritize automation over manual tasks.";
      lit "Ensure configuration blocks and scripts are tailored specifically to the operating system of the device provided (e.g., Cisco IOS-XE, FortiOS, Junos, RouterOS, etc.)." ].

(** *** The request and the response of the generation call *)

Record ThinkingConfig := { thinkingBudget : N }.

Record GenerateContentConfig := {
  systemInstruction : jsstring;
  temperature : Q;
  topP : Q;
  thinkingConfig : ThinkingConfig
}.

Record GenerateContentParameters := {
  model : jsstring;
  contents : jsstring;
  config : GenerateContentConfig
}.

(** [response.text] is a string or [undefined]. *)
Record GenerateContentResponse := { text : option jsstring }.

(** *** Thrown values, effects and the monad that threads them *)

(** What a JavaScript [throw] can carry: an error object with its name
    and message, or any other value (by its printed form). *)
Inductive js_thrown :=
| ErrorObject (name message : jsstring)
| ThrownValue (printed : jsstring).

(** [new Error(message)] *)
Definition new_Error (message : jsstring) : js_thrown :=
  ErrorObject (lit "Error") message.

Variant outcome (A : Type) :=
| Returns (a : A)
| Throws (e : js_thrown).
Arguments Returns {A} a.
Arguments Throws {A} e.

(** The observable effects of the module, in program order. *)
Inductive event :=
| OutboundRequest (params : GenerateContentParameters)
| ConsoleError (label : jsstring) (error : js_thrown).

(** The hosted model and the transport to it: for each request, either a
    response or a thrown error. *)
Definition endpoint :=
  GenerateContentParameters -> outcome GenerateContentResponse.

(** A computation runs against an endpoint and extends the trace of
    effects; it returns a value or throws. *)
Definition Eff (A : Type) := endpoint -> list event -> list event * outcome A.

Definition ret {A} (a : A) : Eff A := fun _ tr => (tr, Returns a).

Definition throw {A} (e : js_thrown) : Eff A := fun _ tr => (tr, Throws e).

Definition bind {A B} (m : Eff A) (k : A -> Eff B) : Eff B :=
  fun ep tr =>
    match m ep tr with
    | (tr', Returns a) => k a ep tr'
    | (tr', Throws e) => (tr', Throws e)
    end.

(** [try { body } catch (error) { handler }] *)
Definition try_catch {A} (body : Eff A) (handler : js_thrown -> Eff A) : Eff A :=
  fun ep tr =>
    match body ep tr with
    | (tr', Returns a) => (tr', Returns a)
    | (tr', Throws e) => handler e ep tr'
    end.

(** [await ai.models.generateContent(params)] *)
Definition generateContent (params : GenerateContentParameters)
  : Eff GenerateContentResponse :=
  fun ep tr => (tr ++ [OutboundRequest params], ep params).

(** [console.error(label, error)] *)
Definition console_error (label : jsstring) (error : js_thrown) : Eff unit :=
  fun _ tr => (tr ++ [ConsoleError label error], Returns tt).

Notation "x <- m ;; k" := (bind m (fun x => k))
  (at level 61, m at next level, right associativity).
Notation "m ;; k" := (bind m (fun _ => k))
  (at level 61, right associativity).

(** [v || d] on a string that may be [undefined]: the empty string and
    [undefined] are the two falsy values. *)
Definition or_else (v : option jsstring) (d : jsstring) : jsstring :=
  match v with
  | Some (c :: s) => c :: s
  | _ => d
  end.

(** The template literal passed as [contents]. *)
Definition prompt (deviceModel : jsstring) : jsstring :=
  lit "Generate a comprehensive blueprint for the device: "
    ++ deviceModel
    ++ lit ". Pay special attention to Section 7, providing highly detailed, error-resilient automation scripts with best-practice Python/Ansible logic.".

Definition request (deviceModel : jsstring) : GenerateContentParameters :=
  {| model := lit "gemini-3-pro-preview";
     contents := prompt deviceModel;
     config :=
       {| systemInstruction := SYSTEM_INSTRUCTION;
          temperature := 7 # 10;
          topP := 95 # 100;
          thinkingConfig := {| thinkingBudget := 6000 |} |} |}.

(** [generateBlueprint] from its [try] on, run against the client [ai]
    that the first statement of the function has built: the endpoint of
    the computation is that client's [models.generateContent]. The whole
    function, with the construction of the client, is [generateBlueprint_in]
    below. *)
Definition generateBlueprint (deviceModel : jsstring) : Eff jsstring :=
  try_catch
    (response <- generateContent (request deviceModel) ;;
     ret (or_else (text response) (lit "Failed to generate blueprint content.")))
    (fun error =>
       console_error (lit "Gemini API Error:") error ;;
       throw (new_Error (lit "Unable to reach PakNet AI services. Please verify your connection."))).

(** One call from a fresh trace. *)
Definition run {A} (m : Eff A) (ep : endpoint) : list event * outcome A :=
  m ep [].

(** What a call finds around it: the credential in [process.env.API_KEY]
    ([undefined] is [None]) and the constructor of the SDK client, which
    gives a client for a credential or throws. *)
Record environment := {
  API_KEY : option jsstring;
  GoogleGenAI : option jsstring -> outcome endpoint
}.

(** The whole of [generateBlueprint]: the client is built first, before
    the [try], so what its constructor throws escapes as it is, with
    nothing sent and nothing logged; with a client, the rest runs against
    it. *)
Definition generateBlueprint_in (env : environment) (deviceModel : jsstring)
  : list event * outcome jsstring :=
  match GoogleGenAI env (API_KEY env) with
  | Returns ai => run (generateBlueprint deviceModel) ai
  | Throws e => ([], Throws e)
  end.

End GeminiService.

(* ===================================================================== *)
(** ** App.tsx                                                            *)
(* ===================================================================== *)

Module App.
Import JS.

(** *** The nodes [MarkdownContent] builds *)

(** A child of a paragraph: a bare string, or a [strong] element with its
    key and text. *)
Inductive inline :=
| text_part (s : jsstring)
| strong (key : nat) (s : jsstring).

(** The elements pushed by the renderer, each with the line index it uses
    as key: the code container with the text of its [pre], the three
    headings, the two kinds of list item, the spacer and the paragraph. *)
Inductive element :=
| code_container (key : nat) (pre : jsstring)
| h1 (key : nat) (s : jsstring)
| h2 (key : nat) (s : jsstring)
| h3 (key : nat) (s : jsstring)
| li_disc (key : nat) (s : jsstring)
| li_decimal (key : nat) (s : jsstring)
| spacer (key : nat)
| p (key : nat) (children : list inline).

(** The three variables the loop body mutates. *)
Record state := {
  elements : list element;
  currentCodeBlock : list jsstring;
  isCodeBlock : bool
}.

Definition init : state :=
  {| elements := []; currentCodeBlock := []; isCodeBlock := false |}.

Definition push (st : state) (e : element) : state :=
  {| elements := elements st ++ [e];
     currentCodeBlock := currentCodeBlock st;
     isCodeBlock := isCodeBlock st |}.

Definition fence : jsstring := lit "```".

(** [line.trim().startsWith(fence)] *)
Definition isFence (line : jsstring) : bool := startsWith (trim line) fence.

(** [a.map((x, idx) => f x idx)] *)
Fixpoint map_idx {A B} (f : A -> nat -> B) (a : list A) (idx : nat) : list B :=
  match a with
  | [] => []
  | x :: a' => f x idx :: map_idx f a' (S idx)
  end.

(** The callback of the paragraph [map]. *)
Definition formatPart (part : jsstring) (idx : nat) : inline :=
  if startsWith part (lit "**") && endsWith part (lit "**")
  then strong idx (slice part 2 (-2))
  else text_part part.

Definition formattedText (line : jsstring) : list inline :=
  map_idx formatPart (split_bold line) 0.

(** The chain of conditions on a line outside a code block. *)
Definition standardElement (line : jsstring) (i : nat) : element :=
  if startsWith line (lit "# ") then h1 i (substring line 2)
  else if startsWith line (lit "## ") then h2 i (substring line 3)
  else if startsWith line (lit "### ") then h3 i (substring line 4)
  else if startsWith line (lit "- ") || startsWith line (lit "* ")
    then li_disc i (substring line 2)
  else if match_ordered_marker line
    then li_decimal i (replace_ordered_marker line)
  else if JS.eqb (trim line) (lit "") then spacer i
  else p i (formattedText line).

(** The body of [lines.forEach((line, i) => ...)]. *)
Definition renderLine (st : state) (line : jsstring) (i : nat) : state :=
  if isFence line then
    if isCodeBlock st then
      {| elements :=
           elements st ++ [code_container i (join_newline (currentCodeBlock st))];
         currentCodeBlock := [];
         isCodeBlock := false |}
    else
      {| elements := elements st;
         currentCodeBlock := currentCodeBlock st;
         isCodeBlock := true |}
  else if isCodeBlock st then
    {| elements := elements st;
       currentCodeBlock := currentCodeBlock st ++ [line];
       isCodeBlock := true |}
  else push st (standardElement line i).

(** [forEach] from index [i] on. *)
Fixpoint forEach (lines : list jsstring) (i : nat) (st : state) : state :=
  match lines with
  | [] => st
  | line :: rest => forEach rest (S i) (renderLine st line i)
  end.

Definition renderLines (lines : list jsstring) : state := forEach lines 0 init.

(** The children of the wrapper the component returns. *)
Definition MarkdownContent (content : jsstring) : list element :=
  elements (renderLines (split_newline content)).

(** *** The history list *)

(** [saveToHistory] against the [history] of the current render; the
    result is the next [history] (and what is written to local storage). *)
Definition saveToHistory (history : list Types.Blueprint) (blueprint : Types.Blueprint)
  : list Types.Blueprint :=
  blueprint
    :: firstn 9
         (filter
            (fun h => negb (JS.eqb (Types.deviceModel h) (Types.deviceModel blueprint)))
            history).

End App.

(* ===================================================================== *)
(** ** Vocabulary of the properties                                       *)
(* ===================================================================== *)

Module Spec.
Import JS Types App.

(** The line feed. *)
Definition LF : N := 10.

(** [sub] occurs in [s] as a contiguous run of code units. *)
Definition isSubstring (sub s : jsstring) : Prop :=
  exists before after, s = before ++ sub ++ after.

(** The outbound requests among the effects of a run. *)
Definition is_request (e : GeminiService.event) : bool :=
  match e with
  | GeminiService.OutboundRequest _ => true
  | GeminiService.ConsoleError _ _ => false
  end.

(** The bold pattern matches at no index of [s]. *)
Fixpoint noBoldMatch (s : jsstring) : bool :=
  match exec_bold s with
  | Some _ => false
  | None => match s with
            | [] => true
            | _ :: t => noBoldMatch t
            end
  end.

Definition notFence (line : jsstring) : Prop := isFence line = false.

(** Outside a code block the buffer is empty. *)
Definition bufferInv (st : state) : Prop :=
  isCodeBlock st = false -> currentCodeBlock st = [].

(** The device models of a history, in order. *)
Definition models (h : list Blueprint) : list jsstring := map deviceModel h.

(** The predicate of the [filter] in [saveToHistory]. *)
Definition otherModel (blueprint h : Blueprint) : bool :=
  negb (JS.eqb (deviceModel h) (deviceModel blueprint)).

(** Sample records and texts for the concrete instances. *)
Definition record (n : N) (model : string) : Blueprint :=
  {| id := lit "id-" ++ [48 + n];
     deviceModel := lit model;
     content := lit "# Device Overview";
     timestamp := 1700000000000 + n |}.

Definition storedHistory : list Blueprint :=
  [record 1 "Cisco Catalyst 9300"; record 2 "MikroTik CCR2004"].

Definition earlierAdditions : list Blueprint :=
  [record 3 "FortiGate 60F"; record 4 "Cisco Catalyst 9300"].

Definition fencedText : jsstring :=
  lit "```" ++ LF :: lit "line1" ++ LF :: lit "line2" ++ LF :: lit "```".

Definition unterminatedText : jsstring :=
  lit "## Setup" ++ LF :: lit "```bash" ++ LF :: lit "show vlan" ++ LF :: lit "".

End Spec.

(* ===================================================================== *)
(** ** App.tsx: the state of the component and its handlers               *)
(* ===================================================================== *)

Module Component.
Import JS GeminiService.

(** The six [useState] cells of [App]. *)
Record state := {
  deviceModel : jsstring;
  loading : bool;
  currentBlueprint : option Types.Blueprint;
  history : list Types.Blueprint;
  error : option jsstring;
  copying : bool
}.

Definition initial : state :=
  {| deviceModel := []; loading := false; currentBlueprint := None;
     history := []; error := None; copying := false |}.

(** The setters: each replaces one cell. *)
Definition setDeviceModel (v : jsstring) (st : state) : state :=
  {| deviceModel := v; loading := loading st;
     currentBlueprint := currentBlueprint st; history := history st;
     error := error st; copying := copying st |}.

Definition setLoading (v : bool) (st : state) : state :=
  {| deviceModel := deviceModel st; loading := v;
     currentBlueprint := currentBlueprint st; history := history st;
     error := error st; copying := copying st |}.

Definition setCurrentBlueprint (v : option Types.Blueprint) (st : state) : state :=
  {| deviceModel := deviceModel st; loading := loading st;
     currentBlueprint := v; history := history st;
     error := error st; copying := copying st |}.

Definition setHistory (v : list Types.Blueprint) (st : state) : state :=
  {| deviceModel := deviceModel st; loading := loading st;
     currentBlueprint := currentBlueprint st; history := v;
     error := error st; copying := copying st |}.

Definition setError (v : option jsstring) (st : state) : state :=
  {| deviceModel := deviceModel st; loading := loading st;
     currentBlueprint := currentBlueprint st; history := history st;
     error := v; copying := copying st |}.

Definition setCopying (v : bool) (st : state) : state :=
  {| deviceModel := deviceModel st; loading := loading st;
     currentBlueprint := currentBlueprint st; history := history st;
     error := error st; copying := v |}.

(** What the handlers do to the world outside the state cells. The value
    of a storage write is the list that is serialised. *)
Inductive effect :=
| Service (e : GeminiService.event)
| ConsoleErrorMessage (message : jsstring)
| LocalStorageSetItem (key : jsstring) (value : list Types.Blueprint)
| ScrollResultsIntoView (delay : N)
| ClipboardWriteText (text : jsstring)
| ResetCopying (delay : N)
| WindowPrint
| WindowScrollTo (top : N).

(** [!s.trim()] *)
Definition isBlank (s : jsstring) : bool :=
  match trim s with [] => true | _ :: _ => false end.

(** The mount effect: [saved] is what [getItem] returns ([null] is [None]),
    [parse] is [JSON.parse] at the type the source gives its result. *)
Definition loadHistory
    (saved : option jsstring)
    (parse : jsstring -> outcome (list Types.Blueprint))
    (st : state) : list effect * state :=
  match saved with
  | Some (c :: s) =>
      match parse (c :: s) with
      | Returns h => ([], setHistory h st)
      | Throws _ => ([ConsoleErrorMessage (lit "Failed to parse history")], st)
      end
  | _ => ([], st)
  end.

(** What a running [handleGenerate] closed over. *)
Record pending := {
  seenDeviceModel : jsstring;
  seenHistory : list Types.Blueprint
}.

(** What the browser gives a call when it settles: [crypto.randomUUID()],
    which returns an identifier or throws, [Date.now()], and
    [localStorage.setItem(key, JSON.stringify(value))], which stores the
    list or throws. *)
Record clock := {
  randomUUID : outcome jsstring;
  now : N;
  setItem : jsstring -> list Types.Blueprint -> outcome unit
}.

(** [saveToHistory]: the history cell is set first, then the list is
    written to local storage; [seen] is the [history] of the render that
    created the handler. A write that throws leaves the cell set. *)
Definition saveToHistory (ck : clock) (seen : list Types.Blueprint)
    (blueprint : Types.Blueprint) (st : state)
    : list effect * state * outcome unit :=
  let newHistory := App.saveToHistory seen blueprint in
  match setItem ck (lit "paknet_history") newHistory with
  | Returns u =>
      ([LocalStorageSetItem (lit "paknet_history") newHistory],
       setHistory newHistory st, Returns u)
  | Throws err => ([], setHistory newHistory st, Throws err)
  end.

(** [err.message || fallback] on the caught value: only an error object
    has a message. *)
Definition errorMessage (err : js_thrown) : jsstring :=
  or_else
    (match err with
     | ErrorObject _ message => Some message
     | ThrownValue _ => None
     end)
    (lit "An unexpected error occurred during generation.").

(** [handleGenerate] up to its [await]: the guard on the trimmed input and
    the three setters ([preventDefault] touches no cell). The result says
    whether a call is now running. *)
Definition handleGenerate_start (st : state) : option pending * state :=
  if isBlank (deviceModel st) then (None, st)
  else
    (Some {| seenDeviceModel := deviceModel st; seenHistory := history st |},
     setCurrentBlueprint None (setError None (setLoading true st))).

(** The [catch] and the [finally] of [handleGenerate]. *)
Definition caught (err : js_thrown) (st : state) : state :=
  setLoading false (setError (Some (errorMessage err)) st).

(** [handleGenerate] after its [await], on the state cells as they are
    then: the [try] body, the [catch] and the [finally]. Whatever is
    thrown inside the [try], by the generation call, by [randomUUID] or by
    the storage write, reaches the [catch]. [ep] is the client the
    generation call has built. *)
Definition handleGenerate_settle (p : pending) (ep : endpoint) (ck : clock)
    (st : state) : list effect * state :=
  match run (generateBlueprint (seenDeviceModel p)) ep with
  | (tr, Returns content) =>
      match randomUUID ck with
      | Returns uuid =>
          let newBlueprint :=
            {| Types.id := uuid;
               Types.deviceModel := seenDeviceModel p;
               Types.content := content;
               Types.timestamp := now ck |} in
          match saveToHistory ck (seenHistory p) newBlueprint
                              (setCurrentBlueprint (Some newBlueprint) st) with
          | (saved, st', Returns _) =>
              (map Service tr ++ saved ++ [ScrollResultsIntoView 100],
               setLoading false st')
          | (saved, st', Throws err) =>
              (map Service tr ++ saved, caught err st')
          end
      | Throws err => (map Service tr, caught err st)
      end
  | (tr, Throws err) => (map Service tr, caught err st)
  end.

(** One whole [handleGenerate], when nothing else happens during the
    call. *)
Definition handleGenerate (ep : endpoint) (ck : clock) (st : state)
    : list effect * state :=
  match handleGenerate_start st with
  | (None, st') => ([], st')
  | (Some p, st') => handleGenerate_settle p ep ck st'
  end.

Definition handleCopy (st : state) : list effect * state :=
  match currentBlueprint st with
  | Some b => ([ClipboardWriteText (Types.content b); ResetCopying 2000],
               setCopying true st)
  | None => ([], st)
  end.

Definition handlePrint (st : state) : list effect * state := ([WindowPrint], st).

(** The [onChange] of the input. *)
Definition onChange (v : jsstring) (st : state) : state := setDeviceModel v st.

(** The [onClick] of the header button. *)
Definition onReset (st : state) : state :=
  setDeviceModel [] (setCurrentBlueprint None st).

(** The [onClick] of a history card. *)
Definition onOpen (item : Types.Blueprint) (st : state) : list effect * state :=
  ([WindowScrollTo 400],
   setDeviceModel (Types.deviceModel item) (setCurrentBlueprint (Some item) st)).

(** *** The conditions of the view *)

(** [disabled] of the submit button. *)
Definition submitDisabled (st : state) : bool :=
  loading st || isBlank (deviceModel st).

Definition showError (st : state) : bool :=
  match error st with Some (_ :: _) => true | _ => false end.

Definition showSkeleton (st : state) : bool := loading st.

Definition showResult (st : state) : bool :=
  match currentBlueprint st with
  | Some _ => negb (loading st)
  | None => false
  end.

Definition showRecent (st : state) : bool :=
  match currentBlueprint st with
  | Some _ => false
  | None => negb (loading st) && (0 <? length (history st))%nat
  end.

Definition showEmpty (st : state) : bool :=
  match currentBlueprint st with
  | Some _ => false
  | None => negb (loading st) && (length (history st) =? 0)%nat
  end.

(** *** The component in use *)

(** The state cells and the calls of [handleGenerate] that are running. *)
Definition system := (state * list pending)%type.

Definition started (o : option pending) : list pending :=
  match o with Some p => [p] | None => [] end.

(** After the mount effect has loaded [h0] (nothing stored: the empty
    list). *)
Definition mounted (h0 : list Types.Blueprint) : system :=
  (setHistory h0 initial, []).

(** What the user, the timers and the endpoint can do next. A control acts
    only where the view renders it: the form submits through its button,
    the history cards are in the recent panel, the copy and print buttons
    in the result panel. *)
Inductive step : system -> system -> Prop :=
| step_change st ps v :
    step (st, ps) (onChange v st, ps)
| step_submit st ps :
    submitDisabled st = false ->
    step (st, ps)
         (snd (handleGenerate_start st), ps ++ started (fst (handleGenerate_start st)))
| step_settle st ps1 p ps2 ep ck :
    step (st, ps1 ++ p :: ps2)
         (snd (handleGenerate_settle p ep ck st), ps1 ++ ps2)
| step_reset st ps :
    step (st, ps) (onReset st, ps)
| step_open st ps item :
    showRecent st = true -> In item (history st) ->
    step (st, ps) (snd (onOpen item st), ps)
| step_copy st ps :
    showResult st = true ->
    step (st, ps) (snd (handleCopy st), ps)
| step_copy_timeout st ps :
    step (st, ps) (setCopying false st, ps)
| step_print st ps :
    showResult st = true ->
    step (st, ps) (snd (handlePrint st), ps).

Inductive reachable (h0 : list Types.Blueprint) : system -> Prop :=
| reach_mounted : reachable h0 (mounted h0)
| reach_step s s' : reachable h0 s -> step s s' -> reachable h0 s'.

End Component.

(* ===================================================================== *)
(** ** Further vocabulary                                                 *)
(* ===================================================================== *)

Module Props.
Import JS Types App Spec.

(** The line index an element carries as its key. *)
Definition key (e : element) : nat :=
  match e with
  | code_container k _ | h1 k _ | h2 k _ | h3 k _
  | li_disc k _ | li_decimal k _ | spacer k | p k _ => k
  end.

Definition isHeadingOrItem (e : element) : bool :=
  match e with
  | h1 _ _ | h2 _ _ | h3 _ _ | li_disc _ _ | li_decimal _ _ => true
  | _ => false
  end.

(** No line feed, no star, no line terminator in a text. *)
Definition noLF (s : jsstring) : Prop := Forall (fun c => c <> LF) s.
Definition noStar (s : jsstring) : Prop := Forall (fun c => c <> 42) s.
Definition noLineTerminator (s : jsstring) : Prop :=
  Forall (fun c => isLineTerminator c = false) s.
Definition allWhiteSpace (s : jsstring) : Prop :=
  Forall (fun c => isWhiteSpace c = true) s.

(** The text does not begin with white space. *)
Definition startsBlack (s : jsstring) : Prop :=
  match s with c :: _ => isWhiteSpace c = false | [] => True end.

(** The invariant of the component in use. *)
Definition componentInv (h0 : list Blueprint) (sys : Component.system) : Prop :=
  let (st, ps) := sys in
  (length ps <= 1)%nat
  /\ (Component.loading st = true <-> ps <> [])
  /\ (forall q, In q ps -> Component.seenHistory q = Component.history st)
  /\ (Component.loading st = true -> Component.currentBlueprint st = None)
  /\ (forall b, Component.currentBlueprint st = Some b -> In b (Component.history st))
  /\ (length (Component.history st) <= Nat.max 10 (length h0))%nat
  /\ (NoDup (models h0) -> NoDup (models (Component.history st))).

Definition isCode (e : element) : bool :=
  match e with code_container _ _ => true | _ => false end.

(** The number of fence lines. *)
Definition fenceCount (lines : list jsstring) : nat :=
  length (filter isFence lines).

(** A record as a submission makes it: a device model that is not blank
    and a text that is not empty. *)
Definition wellFormed (b : Blueprint) : Prop :=
  Component.isBlank (deviceModel b) = false /\ content b <> [].

Definition recordsInv (sys : Component.system) : Prop :=
  let (st, ps) := sys in
  Forall wellFormed (Component.history st)
  /\ Forall (fun q => Component.isBlank (Component.seenDeviceModel q) = false
                     /\ Forall wellFormed (Component.seenHistory q)) ps.

(** An environment without a credential, where the constructor of the
    client refuses to build one, and an environment with a credential. *)
Definition missingKeyError : GeminiService.js_thrown :=
  GeminiService.ErrorObject
    (lit "Error") (lit "An API Key must be set when running in a browser").

Definition sampleClient : GeminiService.endpoint :=
  fun _ =>
    GeminiService.Returns
      {| GeminiService.text := Some (lit "# Device Overview") |}.

Definition sampleConstructor (key : option jsstring)
  : GeminiService.outcome GeminiService.endpoint :=
  match key with
  | Some _ => GeminiService.Returns sampleClient
  | None => GeminiService.Throws missingKeyError
  end.

Definition keylessEnvironment : GeminiService.environment :=
  {| GeminiService.API_KEY := None;
     GeminiService.GoogleGenAI := sampleConstructor |}.

Definition keyedEnvironment : GeminiService.environment :=
  {| GeminiService.API_KEY := Some (lit "sample-credential");
     GeminiService.GoogleGenAI := sampleConstructor |}.

Definition sampleClock : Component.clock :=
  {| Component.randomUUID :=
       GeminiService.Returns (lit "3f2b8c1e-0000-4000-8000-000000000001");
     Component.now := 1700000000123;
     Component.setItem := fun _ _ => GeminiService.Returns tt |}.


Definition typed (v : string) : Component.state :=
  Component.setDeviceModel (lit v) (Component.setHistory storedHistory Component.initial).

End Props.

(* ===================================================================== *)
(** ** Facts about the string methods                                     *)
(* ===================================================================== *)

Module JSFacts.
Import JS Spec.

Lemma eqb_spec (s t : jsstring) : reflect (s = t) (JS.eqb s t).
Proof.
  revert t. induction s as [|c s IH]; intros [|d t]; simpl;
    try (constructor; congruence).
  destruct (N.eqb_spec c d) as [->|Hne]; simpl.
  - destruct (IH t) as [->|Hne]; constructor; congruence.
  - constructor. congruence.
Qed.

Lemma eqb_refl (s : jsstring) : JS.eqb s s = true.
Proof. destruct (eqb_spec s s); congruence. Qed.

Lemma startsWith_app (s pre : jsstring) :
  startsWith s pre = true <-> exists r, s = pre ++ r.
Proof.
  revert s. induction pre as [|a pre IH]; intros s; simpl.
  - split; [intros _; now exists s | reflexivity].
  - destruct s as [|c s].
    + split; [discriminate | intros [r Hr]; discriminate].
    + rewrite andb_true_iff, N.eqb_eq, IH. split.
      * intros [-> [r ->]]. eauto.
      * intros [r Hr]. injection Hr as -> ->. eauto.
Qed.

Lemma endsWith_app (s suf : jsstring) :
  endsWith s suf = true <-> exists r, s = r ++ suf.
Proof.
  unfold endsWith. rewrite startsWith_app. split; intros [r Hr].
  - exists (rev r). rewrite <- (rev_involutive s), Hr, rev_app_distr.
    now rewrite rev_involutive.
  - exists (rev r). now rewrite Hr, rev_app_distr.
Qed.

Lemma dropWhile_snoc_false f (l : jsstring) c :
  f c = false -> dropWhile f (l ++ [c]) = dropWhile f l ++ [c].
Proof.
  intros Hc. induction l as [|a l IH]; simpl.
  - now rewrite Hc.
  - destruct (f a); [exact IH | reflexivity].
Qed.


Lemma takeWhile_dropWhile f (s : jsstring) :
  takeWhile f s ++ dropWhile f s = s.
Proof.
  induction s as [|c s IH]; simpl; [reflexivity|].
  destruct (f c); simpl; [now rewrite IH | reflexivity].
Qed.



Lemma isDigit_range (c : N) : isDigit c = true -> 48 <= c <= 57.
Proof.
  unfold isDigit. rewrite andb_true_iff, !N.leb_le. tauto.
Qed.

Lemma takeWhile_digits (ds rest : jsstring) :
  forallb isDigit ds = true -> takeWhile isDigit (ds ++ 46 :: rest) = ds.
Proof.
  induction ds as [|d ds IH]; simpl; [reflexivity|].
  rewrite andb_true_iff. intros [-> Hds]. now rewrite IH.
Qed.

Lemma dropWhile_digits (ds rest : jsstring) :
  forallb isDigit ds = true -> dropWhile isDigit (ds ++ 46 :: rest) = 46 :: rest.
Proof.
  induction ds as [|d ds IH]; simpl; [reflexivity|].
  rewrite andb_true_iff. intros [-> Hds]. now rewrite IH.
Qed.

(** [slice(2, -2)] of a text of at least four characters drops the first
    two and the last two. *)
Lemma slice_inner (a b c d : N) (m : jsstring) :
  slice (a :: b :: m ++ [c; d]) 2 (-2) = m.
Proof.
  unfold slice. cbn [Z.ltb Z.compare].
  set (len := Z.of_nat (length (a :: b :: m ++ [c; d]))).
  assert (Hlen : len = (Z.of_nat (length m) + 4)%Z).
  { subst len. cbn [length]. rewrite length_app. cbn [length]. lia. }
  replace (Z.min 2 len) with 2%Z by lia.
  replace (Z.max (len + -2) 0) with (len - 2)%Z by lia.
  replace (Z.max (len - 2 - 2) 0) with (Z.of_nat (length m)) by lia.
  rewrite Nat2Z.id. change (Z.to_nat 2) with 2%nat. cbn [skipn].
  rewrite firstn_app, firstn_all, Nat.sub_diag. cbn [firstn].
  now rewrite app_nil_r.
Qed.



End JSFacts.

(* ===================================================================== *)
(** ** The history list                                                   *)
(* ===================================================================== *)

Module HistoryFacts.
Import JS Types App Spec.

Lemma In_firstn {A} n (l : list A) x : In x (firstn n l) -> In x l.
Proof.
  intros Hin. rewrite <- (firstn_skipn n l). apply in_or_app. now left.
Qed.

Lemma In_models_firstn n (h : list Blueprint) m :
  In m (models (firstn n h)) -> In m (models h).
Proof.
  unfold models. rewrite !in_map_iff. intros [x [Hx Hin]].
  exists x. split; [exact Hx|]. eapply In_firstn; eauto.
Qed.

Lemma NoDup_models_firstn n (h : list Blueprint) :
  NoDup (models h) -> NoDup (models (firstn n h)).
Proof.
  revert n. induction h as [|x h IH]; intros [|n] Hnd; simpl; try constructor.
  - inversion Hnd; subst. intros Hin. apply In_models_firstn in Hin. tauto.
  - inversion Hnd; subst. now apply IH.
Qed.

Lemma In_models_filter f (h : list Blueprint) m :
  In m (models (filter f h)) -> In m (models h).
Proof.
  unfold models. rewrite !in_map_iff. intros [x [Hx Hin]].
  apply filter_In in Hin. exists x. tauto.
Qed.

Lemma NoDup_models_filter f (h : list Blueprint) :
  NoDup (models h) -> NoDup (models (filter f h)).
Proof.
  induction h as [|x h IH]; intros Hnd; simpl; [constructor|].
  inversion Hnd; subst.
  destruct (f x); simpl; [constructor|]; auto.
  intros Hin. apply In_models_filter in Hin. tauto.
Qed.

(** No entry that survives the filter carries the new model. *)
Lemma filter_otherModel (blueprint : Blueprint) (h : list Blueprint) :
  Forall (fun e => deviceModel e <> deviceModel blueprint)
         (filter (otherModel blueprint) h).
Proof.
  apply Forall_forall. intros e He. apply filter_In in He as [_ He].
  unfold otherModel in He. apply negb_true_iff in He.
  destruct (JSFacts.eqb_spec (deviceModel e) (deviceModel blueprint)); congruence.
Qed.

Lemma Forall_firstn {A} (P : A -> Prop) n (l : list A) :
  Forall P l -> Forall P (firstn n l).
Proof.
  rewrite !Forall_forall. intros H x Hx. apply H. eapply In_firstn; eauto.
Qed.

Lemma saveToHistory_tail (history : list Blueprint) (blueprint : Blueprint) :
  Forall (fun e => deviceModel e <> deviceModel blueprint)
         (tl (saveToHistory history blueprint)).
Proof.
  unfold saveToHistory. cbn [tl].
  apply Forall_firstn. exact (filter_otherModel blueprint history).
Qed.

Lemma saveToHistory_length (history : list Blueprint) (blueprint : Blueprint) :
  (length (saveToHistory history blueprint) <= 10)%nat.
Proof.
  unfold saveToHistory. cbn [length]. rewrite length_firstn. lia.
Qed.

Lemma saveToHistory_NoDup (history : list Blueprint) (blueprint : Blueprint) :
  NoDup (models history) -> NoDup (models (saveToHistory history blueprint)).
Proof.
  intros Hnd.
  pose proof (saveToHistory_tail history blueprint) as Ht.
  unfold saveToHistory in *. cbn [tl] in Ht.
  change (NoDup (deviceModel blueprint
                   :: models (firstn 9 (filter (otherModel blueprint) history)))).
  constructor.
  - intros Hin. apply in_map_iff in Hin as [e [He Hin]].
    rewrite Forall_forall in Ht. exact (Ht e Hin He).
  - apply NoDup_models_firstn, NoDup_models_filter, Hnd.
Qed.

Lemma additions_NoDup (additions history : list Blueprint) :
  NoDup (models history) ->
  NoDup (models (fold_left saveToHistory additions history)).
Proof.
  revert history. induction additions as [|b additions IH]; intros history Hnd.
  - exact Hnd.
  - simpl. apply IH, saveToHistory_NoDup, Hnd.
Qed.

(** C1. Whatever the stored history and however many records were added
    before, adding a record with [saveToHistory] gives a list with the new
    record at the front, no other entry with its device model, at most ten
    entries, and no two entries with the same device model when the
    starting list had none. *)
Theorem saveToHistory_invariant
    (history additions : list Blueprint) (blueprint : Blueprint) :
  let h' := saveToHistory (fold_left saveToHistory additions history) blueprint in
  (exists rest, h' = blueprint :: rest
     /\ Forall (fun e => deviceModel e <> deviceModel blueprint) rest)
  /\ (length h' <= 10)%nat
  /\ (NoDup (models history) -> NoDup (models h')).
Proof.
  intros h'. subst h'. split; [|split].
  - eexists. split; [reflexivity|].
    exact (saveToHistory_tail _ blueprint).
  - apply saveToHistory_length.
  - intros Hnd. apply saveToHistory_NoDup, additions_NoDup, Hnd.
Qed.

Lemma saveToHistory_invariant_holds :
  NoDup (models storedHistory)
  /\ NoDup (models
              (saveToHistory (fold_left saveToHistory earlierAdditions storedHistory)
                             (record 5 "MikroTik CCR2004"))).
Proof.
  assert (Hnd : NoDup (models storedHistory)).
  { repeat constructor; simpl; intuition discriminate. }
  split; [exact Hnd|].
  exact (proj2 (proj2 (saveToHistory_invariant
                         storedHistory earlierAdditions
                         (record 5 "MikroTik CCR2004"))) Hnd).
Defined.

End HistoryFacts.

(* ===================================================================== *)
(** ** The renderer                                                       *)
(* ===================================================================== *)

Module RenderFacts.
Import JS App Spec.

Lemma renderLine_fence (st : state) (line : jsstring) (i : nat) :
  isFence line = true ->
  renderLine st line i =
    if isCodeBlock st then
      {| elements :=
           elements st ++ [code_container i (join_newline (currentCodeBlock st))];
         currentCodeBlock := [];
         isCodeBlock := false |}
    else
      {| elements := elements st;
         currentCodeBlock := currentCodeBlock st;
         isCodeBlock := true |}.
Proof. intros Hf. unfold renderLine. now rewrite Hf. Qed.

Lemma renderLine_accumulate (st : state) (line : jsstring) (i : nat) :
  isFence line = false -> isCodeBlock st = true ->
  renderLine st line i =
    {| elements := elements st;
       currentCodeBlock := currentCodeBlock st ++ [line];
       isCodeBlock := true |}.
Proof. intros Hf Hc. unfold renderLine. now rewrite Hf, Hc. Qed.

Lemma renderLine_standard (st : state) (line : jsstring) (i : nat) :
  isFence line = false -> isCodeBlock st = false ->
  renderLine st line i = push st (standardElement line i).
Proof. intros Hf Hc. unfold renderLine. now rewrite Hf, Hc. Qed.

Lemma forEach_app (l1 l2 : list jsstring) (i : nat) (st : state) :
  forEach (l1 ++ l2) i st = forEach l2 (i + length l1) (forEach l1 i st).
Proof.
  revert i st. induction l1 as [|x l1 IH]; intros i st; simpl.
  - now rewrite Nat.add_0_r.
  - rewrite IH. f_equal. lia.
Qed.

Lemma renderLines_snoc (lines : list jsstring) (line : jsstring) :
  renderLines (lines ++ [line])
  = renderLine (renderLines lines) line (length lines).
Proof. unfold renderLines. now rewrite forEach_app. Qed.

Lemma renderLine_bufferInv (st : state) (line : jsstring) (i : nat) :
  bufferInv st -> bufferInv (renderLine st line i).
Proof.
  unfold bufferInv, renderLine. intros Hinv.
  destruct (isFence line), (isCodeBlock st); simpl; auto; discriminate.
Qed.

Lemma forEach_bufferInv (lines : list jsstring) (i : nat) (st : state) :
  bufferInv st -> bufferInv (forEach lines i st).
Proof.
  revert i st. induction lines as [|x lines IH]; intros i st Hinv; simpl.
  - exact Hinv.
  - apply IH, renderLine_bufferInv, Hinv.
Qed.

Lemma renderLines_bufferInv (lines : list jsstring) :
  bufferInv (renderLines lines).
Proof. apply forEach_bufferInv. intros _. reflexivity. Qed.

(** Lines without a fence, read inside a code block, only grow the
    buffer. *)
Lemma forEach_accumulate (body : list jsstring) (i : nat) (st : state) :
  Forall notFence body -> isCodeBlock st = true ->
  forEach body i st =
    {| elements := elements st;
       currentCodeBlock := currentCodeBlock st ++ body;
       isCodeBlock := true |}.
Proof.
  revert i st. induction body as [|x body IH]; intros i st Hb Hc.
  - destruct st as [es buf c]. simpl in *. subst c. now rewrite app_nil_r.
  - inversion Hb as [|? ? Hx Hb']; subst. simpl.
    rewrite (renderLine_accumulate st x i Hx Hc).
    rewrite IH by (auto; reflexivity). simpl.
    now rewrite <- app_assoc.
Qed.

(** The elements already pushed are never touched again. *)
Lemma forEach_elements (lines : list jsstring) (i : nat) (st : state) :
  exists more, elements (forEach lines i st) = elements st ++ more.
Proof.
  revert i st. induction lines as [|x lines IH]; intros i st; simpl.
  - exists []. now rewrite app_nil_r.
  - destruct (IH (S i) (renderLine st x i)) as [more Hmore].
    rewrite Hmore. unfold renderLine, push.
    destruct (isFence x), (isCodeBlock st); simpl;
      try rewrite <- app_assoc; eauto.
Qed.

(** An opening fence after [pre], then lines without a fence. *)
Lemma renderLines_open (pre body : list jsstring) (open : jsstring) :
  isCodeBlock (renderLines pre) = false ->
  isFence open = true ->
  Forall notFence body ->
  renderLines (pre ++ open :: body) =
    {| elements := elements (renderLines pre);
       currentCodeBlock := body;
       isCodeBlock := true |}.
Proof.
  intros Hpre Hopen Hbody.
  unfold renderLines. rewrite forEach_app. fold (renderLines pre). simpl.
  rewrite (renderLine_fence _ _ _ Hopen), Hpre.
  rewrite forEach_accumulate by (auto; reflexivity). simpl.
  now rewrite (renderLines_bufferInv pre Hpre).
Qed.

(** A complete fenced block after [pre]. *)
Lemma renderLines_block (pre body : list jsstring) (open close : jsstring) :
  isCodeBlock (renderLines pre) = false ->
  isFence open = true ->
  Forall notFence body ->
  isFence close = true ->
  renderLines (pre ++ open :: body ++ [close]) =
    {| elements :=
         elements (renderLines pre)
           ++ [code_container (length pre + S (length body)) (join_newline body)];
       currentCodeBlock := [];
       isCodeBlock := false |}.
Proof.
  intros Hpre Hopen Hbody Hclose.
  change (pre ++ open :: body ++ [close])
    with (pre ++ (open :: body) ++ [close]).
  rewrite app_assoc, renderLines_snoc.
  rewrite (renderLines_open _ _ _ Hpre Hopen Hbody).
  rewrite (renderLine_fence _ _ _ Hclose). simpl.
  rewrite length_app. reflexivity.
Qed.

(** Every input that ends inside a code block is a prefix that ends
    outside one, an opening fence, and lines without a fence. *)
Lemma open_block_decompose (lines : list jsstring) :
  isCodeBlock (renderLines lines) = true ->
  exists pre open body,
    lines = pre ++ open :: body
    /\ isCodeBlock (renderLines pre) = false
    /\ isFence open = true
    /\ Forall notFence body.
Proof.
  induction lines as [|x lines IH] using rev_ind; [discriminate|].
  rewrite renderLines_snoc. unfold renderLine.
  destruct (isFence x) eqn:Hx, (isCodeBlock (renderLines lines)) eqn:Hc;
    simpl; rewrite ?Hc; try discriminate; intros _.
  - exists lines, x, []. auto.
  - destruct (IH eq_refl) as (pre & open & body & -> & Hpre & Hopen & Hbody).
    exists pre, open, (body ++ [x]). rewrite <- app_assoc. simpl.
    repeat split; auto. apply Forall_app. split; auto.
Qed.

End RenderFacts.

(* ===================================================================== *)
(** ** The generation call                                                *)
(* ===================================================================== *)

Module ServiceFacts.
Import JS GeminiService Spec Props.

Lemma generateBlueprint_run (deviceModel : jsstring) (ep : endpoint) :
  run (generateBlueprint deviceModel) ep =
    match ep (request deviceModel) with
    | Returns response =>
        ([OutboundRequest (request deviceModel)],
         Returns (or_else (text response)
                          (lit "Failed to generate blueprint content.")))
    | Throws error =>
        ([OutboundRequest (request deviceModel);
          ConsoleError (lit "Gemini API Error:") error],
         Throws (new_Error
                   (lit "Unable to reach PakNet AI services. Please verify your connection.")))
    end.
Proof.
  unfold run, generateBlueprint, try_catch, bind, generateContent,
    console_error, ret, throw.
  destruct (ep (request deviceModel)); reflexivity.
Qed.

(** C6. Whatever the device model and whatever the outbound call throws,
    [generateBlueprint] throws the one fixed error; the value that was
    thrown only reaches the console log. *)
Theorem generateBlueprint_fixed_error
    (deviceModel : jsstring) (ep : endpoint) (error : js_thrown) :
  ep (request deviceModel) = Throws error ->
  run (generateBlueprint deviceModel) ep =
    ([OutboundRequest (request deviceModel);
      ConsoleError (lit "Gemini API Error:") error],
     Throws (new_Error
               (lit "Unable to reach PakNet AI services. Please verify your connection."))).
Proof. intros Hep. now rewrite generateBlueprint_run, Hep. Qed.

Lemma generateBlueprint_fixed_error_holds :
  snd (run (generateBlueprint (lit "Cisco Catalyst 9300"))
           (fun _ => Throws (ErrorObject (lit "ApiError") (lit "403 PERMISSION_DENIED"))))
  = Throws (new_Error
              (lit "Unable to reach PakNet AI services. Please verify your connection.")).
Proof.
  rewrite (generateBlueprint_fixed_error
             (lit "Cisco Catalyst 9300")
             (fun _ => Throws (ErrorObject (lit "ApiError") (lit "403 PERMISSION_DENIED")))
             (ErrorObject (lit "ApiError") (lit "403 PERMISSION_DENIED"))
             eq_refl).
  reflexivity.
Defined.

(** C7. When the outbound call succeeds with an empty text payload (the
    empty string or no text at all), [generateBlueprint] returns the
    literal fallback string and throws nothing. *)
Theorem generateBlueprint_empty_payload
    (deviceModel : jsstring) (ep : endpoint) (response : GenerateContentResponse) :
  ep (request deviceModel) = Returns response ->
  text response = Some [] \/ text response = None ->
  run (generateBlueprint deviceModel) ep =
    ([OutboundRequest (request deviceModel)],
     Returns (lit "Failed to generate blueprint content.")).
Proof.
  intros Hep Hempty. rewrite generateBlueprint_run, Hep.
  destruct Hempty as [-> | ->]; reflexivity.
Qed.

Lemma generateBlueprint_empty_payload_holds :
  run (generateBlueprint (lit "MikroTik CCR2004"))
      (fun _ => Returns {| text := Some [] |})
  = ([OutboundRequest (request (lit "MikroTik CCR2004"))],
     Returns (lit "Failed to generate blueprint content.")).
Proof.
  exact (generateBlueprint_empty_payload
           (lit "MikroTik CCR2004")
           (fun _ => Returns {| text := Some [] |})
           {| text := Some [] |}
           eq_refl (or_introl eq_refl)).
Defined.

(** C8, as stated, fails: in an environment without a credential the
    constructor of the client throws before the [try], so a call for a
    non-empty device model issues no request at all, and the error of the
    constructor escapes. *)
Lemma generateBlueprint_no_client_no_request :
  lit "Cisco Catalyst 9300" <> []
  /\ filter is_request
       (fst (generateBlueprint_in keylessEnvironment (lit "Cisco Catalyst 9300")))
     = []
  /\ length (filter is_request
               (fst (generateBlueprint_in keylessEnvironment
                       (lit "Cisco Catalyst 9300")))) <> 1%nat
  /\ generateBlueprint_in keylessEnvironment (lit "Cisco Catalyst 9300")
     = ([], Throws missingKeyError).
Proof. repeat split; discriminate. Qed.

(** C8, amended. When the client can be built, one call to
    [generateBlueprint] issues exactly one outbound request, whether the
    endpoint then answers or throws, and the prompt of that request
    contains the device model as a substring, for every device model, the
    non-empty ones in particular. When the constructor of the client
    throws, the call issues no request and throws what the constructor
    threw. *)
Theorem generateBlueprint_one_request_with_client
    (env : environment) (deviceModel : jsstring) :
  (forall ai, GoogleGenAI env (API_KEY env) = Returns ai ->
     filter is_request (fst (generateBlueprint_in env deviceModel))
       = [OutboundRequest (request deviceModel)]
     /\ isSubstring deviceModel (contents (request deviceModel)))
  /\ (forall e, GoogleGenAI env (API_KEY env) = Throws e ->
        generateBlueprint_in env deviceModel = ([], Throws e)).
Proof.
  unfold generateBlueprint_in. split.
  - intros ai ->. split.
    + rewrite generateBlueprint_run.
      destruct (ai (request deviceModel)); reflexivity.
    + unfold isSubstring, request, contents, prompt. eauto.
  - now intros e ->.
Qed.

Lemma generateBlueprint_one_request_with_client_holds :
  filter is_request
    (fst (generateBlueprint_in keyedEnvironment (lit "Cisco Catalyst 9300")))
  = [OutboundRequest (request (lit "Cisco Catalyst 9300"))]
  /\ isSubstring (lit "Cisco Catalyst 9300")
                 (contents (request (lit "Cisco Catalyst 9300"))).
Proof.
  exact (proj1 (generateBlueprint_one_request_with_client
                  keyedEnvironment (lit "Cisco Catalyst 9300"))
               sampleClient eq_refl).
Defined.

End ServiceFacts.

(* ===================================================================== *)
(** ** Properties of the renderer                                         *)
(* ===================================================================== *)

Module RenderClaims.
Import JS App Spec JSFacts RenderFacts.

(** C3. When the input ends inside a code block, its lines are a prefix
    that ends outside a code block, an opening fence and the lines read
    since; the output is the output of the prefix alone, whatever those
    lines are. The lines stay in the buffer and reach no element. *)
Theorem unterminated_block_dropped (content : jsstring) :
  isCodeBlock (renderLines (split_newline content)) = true ->
  exists pre open body,
    split_newline content = pre ++ open :: body
    /\ isCodeBlock (renderLines pre) = false
    /\ isFence open = true
    /\ Forall notFence body
    /\ currentCodeBlock (renderLines (split_newline content)) = body
    /\ MarkdownContent content = elements (renderLines pre)
    /\ forall body', Forall notFence body' ->
         elements (renderLines (pre ++ open :: body'))
         = elements (renderLines pre).
Proof.
  intros Hopen.
  destruct (open_block_decompose _ Hopen)
    as (pre & open & body & Hsplit & Hpre & Hfence & Hbody).
  exists pre, open, body. unfold MarkdownContent. rewrite Hsplit.
  rewrite (renderLines_open _ _ _ Hpre Hfence Hbody). simpl.
  repeat split; auto.
  intros body' Hbody'.
  now rewrite (renderLines_open _ _ _ Hpre Hfence Hbody').
Qed.

Lemma unterminated_block_dropped_holds :
  exists pre open body,
    split_newline unterminatedText = pre ++ open :: body
    /\ isCodeBlock (renderLines pre) = false
    /\ isFence open = true
    /\ Forall notFence body
    /\ currentCodeBlock (renderLines (split_newline unterminatedText)) = body
    /\ MarkdownContent unterminatedText = elements (renderLines pre)
    /\ forall body', Forall notFence body' ->
         elements (renderLines (pre ++ open :: body'))
         = elements (renderLines pre).
Proof. exact (unterminated_block_dropped unterminatedText eq_refl). Defined.

Example unterminated_block_output :
  MarkdownContent unterminatedText = [h2 0 (lit "Setup")].
Proof. reflexivity. Qed.

(** A line of digits and a dot that is not followed by white space is an
    ordered list item whose text is the whole line. *)
Lemma ordered_marker_without_space (d : N) (ds rest : jsstring) (i : nat) :
  forallb isDigit (d :: ds) = true ->
  match rest with c :: _ => isWhiteSpace c = false | [] => True end ->
  standardElement (d :: ds ++ 46 :: rest) i
  = li_decimal i (d :: ds ++ 46 :: rest).
Proof.
  intros Hds Hrest.
  assert (Hd : 48 <= d <= 57).
  { simpl in Hds. apply andb_true_iff in Hds as [Hd _].
    now apply isDigit_range. }
  assert (Hne : forall k, k < 48 -> (d =? k) = false).
  { intros k Hk. apply N.eqb_neq. lia. }
  unfold standardElement, match_ordered_marker, replace_ordered_marker,
    exec_ordered_marker.
  change (d :: ds ++ 46 :: rest) with ((d :: ds) ++ 46 :: rest).
  rewrite (takeWhile_digits _ rest Hds), (dropWhile_digits _ rest Hds).
  cbn [app]. cbn [lit list_ascii_of_string map startsWith].
  rewrite !Hne by (vm_compute; reflexivity). cbn [andb orb].
  destruct rest as [|c rest]; [reflexivity|]. now rewrite Hrest.
Qed.

(** C4, at the input [1.Text]. The line matches the ordered-list pattern
    and is rendered as an ordered list item, but its text is still the
    whole line, digits and dot included: the pattern that strips the
    marker also asks for white space after the dot. *)
Theorem ordered_marker_kept :
  match_ordered_marker (lit "1.Text") = true
  /\ replace_ordered_marker (lit "1.Text") = lit "1.Text"
  /\ MarkdownContent (lit "1.Text") = [li_decimal 0 (lit "1.Text")].
Proof. repeat split. Qed.

Example heading_level_2 : MarkdownContent (lit "## Title") = [h2 0 (lit "Title")].
Proof. reflexivity. Qed.

Example heading_level_3 : MarkdownContent (lit "### Sub") = [h3 0 (lit "Sub")].
Proof. reflexivity. Qed.

Example ordered_item_stripped :
  MarkdownContent (lit "12.  Device Overview") = [li_decimal 0 (lit "Device Overview")].
Proof. reflexivity. Qed.

Example bold_span_splitting :
  MarkdownContent (lit "Hello **world** now")
  = [p 0 [text_part (lit "Hello "); strong 1 (lit "world"); text_part (lit " now")]].
Proof. reflexivity. Qed.

(** C5, at the input of three stars. The bold pattern matches nowhere in
    the line, so the split returns it whole; the paragraph nevertheless
    holds one bold span, with empty text, and the three characters are
    not passed through. *)
Theorem unmatched_stars_not_passed_through :
  noBoldMatch (lit "***") = true
  /\ split_bold (lit "***") = [lit "***"]
  /\ MarkdownContent (lit "***") = [p 0 [strong 0 []]]
  /\ MarkdownContent (lit "***") <> [p 0 [text_part (lit "***")]].
Proof. repeat split. discriminate. Qed.




(** C10. The empty string splits into one empty line, so rendering it
    gives exactly one spacer, not an empty sequence. *)
Theorem empty_content_one_spacer :
  split_newline (lit "") = [lit ""]
  /\ MarkdownContent (lit "") = [spacer 0].
Proof. split; reflexivity. Qed.

End RenderClaims.

(* ===================================================================== *)
(** ** Lines, and the text of a code block                                *)
(* ===================================================================== *)

Module LineFacts.
Import JS App Spec Props JSFacts RenderFacts.

Lemma split_newline_not_nil (s : jsstring) : split_newline s <> [].
Proof.
  destruct s as [|c s]; simpl; [discriminate|].
  destruct (c =? 10); [discriminate|].
  destruct (split_newline s); discriminate.
Qed.

Lemma join_newline_cons (l : jsstring) (ls : list jsstring) :
  ls <> [] -> join_newline (l :: ls) = l ++ LF :: join_newline ls.
Proof. destruct ls; [congruence | reflexivity]. Qed.

(** Joining the lines of a text with line feeds gives the text back. *)
Lemma join_split_newline (s : jsstring) :
  join_newline (split_newline s) = s.
Proof.
  induction s as [|c s IH]; [reflexivity|].
  cbn [split_newline]. destruct (N.eqb_spec c 10) as [->|Hc].
  - rewrite join_newline_cons by apply split_newline_not_nil.
    simpl. now rewrite IH.
  - pose proof (split_newline_not_nil s) as Hne.
    destruct (split_newline s) as [|l ls]; [congruence|].
    destruct ls as [|l' ls]; simpl in *; now rewrite <- IH.
Qed.

Lemma split_newline_noLF_line (l : jsstring) :
  noLF l -> split_newline l = [l].
Proof.
  induction 1 as [|c l Hc Hl IH]; [reflexivity|].
  cbn [split_newline]. apply N.eqb_neq in Hc. unfold LF in Hc.
  now rewrite Hc, IH.
Qed.

Lemma split_newline_app (l s : jsstring) :
  noLF l -> split_newline (l ++ LF :: s) = l :: split_newline s.
Proof.
  induction 1 as [|c l Hc Hl IH]; [reflexivity|].
  cbn [app split_newline]. apply N.eqb_neq in Hc. unfold LF in Hc.
  now rewrite Hc, IH.
Qed.

(** Splitting what was joined gives the lines back, when there is at least
    one line and no line holds a line feed. *)
Lemma split_join_newline (ls : list jsstring) :
  ls <> [] -> Forall noLF ls -> split_newline (join_newline ls) = ls.
Proof.
  induction ls as [|l ls IH]; [congruence|]. intros _ Hall.
  inversion Hall as [|? ? Hl Hls]; subst.
  destruct ls as [|l' ls].
  - now apply split_newline_noLF_line.
  - rewrite join_newline_cons by discriminate.
    rewrite split_newline_app by exact Hl.
    now rewrite IH.
Qed.

(** X1. Splitting at line feeds and joining with line feeds are inverse to
    each other: the joined lines of a text are the text, and the lines of
    a joined list are the list, when the list is not empty and no line
    holds a line feed. *)
Theorem newline_round_trip (s : jsstring) (ls : list jsstring) :
  join_newline (split_newline s) = s
  /\ (ls <> [] -> Forall noLF ls -> split_newline (join_newline ls) = ls).
Proof.
  split; [apply join_split_newline | apply split_join_newline].
Qed.

Lemma newline_round_trip_holds :
  split_newline (join_newline [lit "vlan 10"; lit ""; lit " name USERS"])
  = [lit "vlan 10"; lit ""; lit " name USERS"].
Proof.
  apply (proj2 (newline_round_trip [] [lit "vlan 10"; lit ""; lit " name USERS"]));
    [discriminate|].
  repeat constructor; discriminate.
Defined.

(** The lines of a text hold no line feed. *)
Lemma split_newline_noLF (s : jsstring) : Forall noLF (split_newline s).
Proof.
  induction s as [|c s IH]; [repeat constructor|].
  cbn [split_newline]. destruct (N.eqb_spec c 10) as [->|Hc].
  - constructor; [constructor | exact IH].
  - destruct (split_newline s) as [|l ls]; [repeat constructor; exact Hc|].
    inversion IH; subst. constructor; [constructor|]; assumption.
Qed.

Lemma join_newline_app (a b : list jsstring) :
  a <> [] -> b <> [] ->
  join_newline (a ++ b) = join_newline a ++ LF :: join_newline b.
Proof.
  intros Ha Hb. induction a as [|l a IH]; [congruence|].
  destruct a as [|l' a].
  - simpl app. now rewrite join_newline_cons.
  - change ((l :: l' :: a) ++ b) with (l :: (l' :: a) ++ b).
    rewrite join_newline_cons by discriminate.
    rewrite IH by discriminate.
    rewrite (join_newline_cons l (l' :: a)) by discriminate.
    now rewrite <- app_assoc.
Qed.

(** The joined text of consecutive lines is a substring of the joined text
    of all lines. *)
Lemma join_newline_middle (a m b : list jsstring) :
  isSubstring (join_newline m) (join_newline (a ++ m ++ b)).
Proof.
  destruct m as [|x m].
  - exists [], (join_newline (a ++ b)). reflexivity.
  - destruct a as [|y a], b as [|z b];
      rewrite ?app_nil_l, ?app_nil_r.
    + exists [], []. now rewrite app_nil_r.
    + rewrite (join_newline_app (x :: m) (z :: b)) by discriminate.
      now exists [], (LF :: join_newline (z :: b)).
    + rewrite join_newline_app by discriminate.
      exists (join_newline (y :: a) ++ [LF]), [].
      now rewrite app_nil_r, <- app_assoc.
    + rewrite join_newline_app by discriminate.
      rewrite (join_newline_app (x :: m) (z :: b)) by discriminate.
      exists (join_newline (y :: a) ++ [LF]), (LF :: join_newline (z :: b)).
      now rewrite <- !app_assoc.
Qed.

(** A complete fenced block, whatever follows it. *)
Lemma renderLines_block_then
    (pre body rest : list jsstring) (open close : jsstring) :
  isCodeBlock (renderLines pre) = false ->
  isFence open = true ->
  Forall notFence body ->
  isFence close = true ->
  exists more,
    elements (renderLines (pre ++ open :: body ++ close :: rest))
    = elements (renderLines pre)
        ++ code_container (length pre + S (length body)) (join_newline body)
        :: more.
Proof.
  intros Hpre Hopen Hbody Hclose.
  replace (pre ++ open :: body ++ close :: rest)
    with ((pre ++ open :: body ++ [close]) ++ rest)
    by (rewrite <- !app_assoc; simpl; now rewrite <- app_assoc).
  unfold renderLines at 1. rewrite forEach_app.
  fold (renderLines (pre ++ open :: body ++ [close])).
  rewrite (renderLines_block pre body open close Hpre Hopen Hbody Hclose).
  match goal with
  | |- context [forEach rest ?i ?st] =>
      destruct (forEach_elements rest i st) as [more Hmore]
  end.
  exists more. rewrite Hmore. simpl. now rewrite <- app_assoc.
Qed.

(** X2. The text of a code container is a verbatim piece of the input: the
    lines between the two fences, as they stand in the text, and splitting
    it at line feeds gives those lines back. *)
Theorem code_container_verbatim
    (content : jsstring) (pre body rest : list jsstring) (open close : jsstring) :
  split_newline content = pre ++ open :: body ++ close :: rest ->
  isCodeBlock (renderLines pre) = false ->
  isFence open = true ->
  Forall notFence body ->
  isFence close = true ->
  In (code_container (length pre + S (length body)) (join_newline body))
     (MarkdownContent content)
  /\ isSubstring (join_newline body) content
  /\ (body <> [] -> split_newline (join_newline body) = body).
Proof.
  intros Hsplit Hpre Hopen Hbody Hclose. split; [|split].
  - unfold MarkdownContent. rewrite Hsplit.
    destruct (renderLines_block_then pre body rest open close
                Hpre Hopen Hbody Hclose) as [more ->].
    apply in_or_app. right. now left.
  - rewrite <- (join_split_newline content), Hsplit.
    change (pre ++ open :: body ++ close :: rest)
      with (pre ++ [open] ++ body ++ close :: rest).
    rewrite app_assoc. apply join_newline_middle.
  - intros Hne. apply split_join_newline; [exact Hne|].
    pose proof (split_newline_noLF content) as Hall. rewrite Hsplit in Hall.
    apply Forall_app in Hall as [_ Hall]. inversion Hall as [|? ? _ Hall']; subst.
    now apply Forall_app in Hall' as [Hall' _].
Qed.

Lemma code_container_verbatim_holds :
  let content :=
    join_newline [lit "# Plan"; lit "```"; lit "vlan 10"; lit ""; lit "```"; lit "done"] in
  In (code_container 4 (join_newline [lit "vlan 10"; lit ""]))
     (MarkdownContent content)
  /\ isSubstring (join_newline [lit "vlan 10"; lit ""]) content
  /\ ([lit "vlan 10"; lit ""] <> [] ->
      split_newline (join_newline [lit "vlan 10"; lit ""]) = [lit "vlan 10"; lit ""]).
Proof.
  refine (code_container_verbatim
            (join_newline [lit "# Plan"; lit "```"; lit "vlan 10"; lit "";
                           lit "```"; lit "done"])
            [lit "# Plan"] [lit "vlan 10"; lit ""] [lit "done"]
            (lit "```") (lit "```")
            eq_refl eq_refl eq_refl _ eq_refl).
  repeat constructor.
Defined.

End LineFacts.

(* ===================================================================== *)
(** ** Fenced blocks                                                      *)
(* ===================================================================== *)

Module FencedBlocks.
Import JS App Spec Props JSFacts RenderFacts LineFacts.

(** C2. A fence line toggles [isCodeBlock] and its own text reaches no
    element; a line read inside a code block, blank or not, is appended
    unchanged to the buffer; the closing fence pushes exactly one code
    container holding the buffered lines and clears the buffer. So a
    complete fenced block after a prefix that ends outside a code block
    contributes one code container with the lines between the fences, in
    every input text: the text of the container is those lines with a line
    feed between each two, a piece of the input as it stands, and splitting
    it at line feeds gives exactly those lines back (the empty text for no
    line). The four-line sample renders to a single code container whose
    text is [line1], a line feed, [line2], that is the two lines [line1]
    and [line2]. *)
Theorem fenced_block_rendering :
  (forall st line i, isFence line = true ->
     renderLine st line i =
       if isCodeBlock st then
         {| elements :=
              elements st ++ [code_container i (join_newline (currentCodeBlock st))];
            currentCodeBlock := [];
            isCodeBlock := false |}
       else
         {| elements := elements st;
            currentCodeBlock := currentCodeBlock st;
            isCodeBlock := true |})
  /\ (forall st line i, isFence line = false -> isCodeBlock st = true ->
        renderLine st line i =
          {| elements := elements st;
             currentCodeBlock := currentCodeBlock st ++ [line];
             isCodeBlock := true |})
  /\ (forall content pre open body close rest,
        split_newline content = pre ++ open :: body ++ close :: rest ->
        isCodeBlock (renderLines pre) = false ->
        isFence open = true ->
        Forall notFence body ->
        isFence close = true ->
        renderLines (pre ++ open :: body ++ [close]) =
          {| elements :=
               elements (renderLines pre)
                 ++ [code_container (length pre + S (length body))
                                    (join_newline body)];
             currentCodeBlock := [];
             isCodeBlock := false |}
        /\ (exists more,
              MarkdownContent content =
                elements (renderLines pre)
                  ++ code_container (length pre + S (length body))
                                    (join_newline body)
                  :: more)
        /\ (body <> [] -> split_newline (join_newline body) = body)
        /\ (body = [] -> join_newline body = [])
        /\ isSubstring (join_newline body) content)
  /\ MarkdownContent fencedText
     = [code_container 3 (lit "line1" ++ LF :: lit "line2")]
  /\ join_newline [lit "line1"; lit "line2"] = lit "line1" ++ LF :: lit "line2"
  /\ split_newline (lit "line1" ++ LF :: lit "line2") = [lit "line1"; lit "line2"].
Proof.
  split; [exact renderLine_fence|].
  split; [exact renderLine_accumulate|].
  split; [|repeat split].
  intros content pre open body close rest Hsplit Hpre Hopen Hbody Hclose.
  split; [exact (renderLines_block pre body open close Hpre Hopen Hbody Hclose)|].
  split.
  { unfold MarkdownContent. rewrite Hsplit.
    exact (renderLines_block_then pre body rest open close
             Hpre Hopen Hbody Hclose). }
  split.
  { intros Hne. apply split_join_newline; [exact Hne|].
    pose proof (split_newline_noLF content) as Hall. rewrite Hsplit in Hall.
    apply Forall_app in Hall as [_ Hall].
    inversion Hall as [|? ? _ Hall']; subst.
    now apply Forall_app in Hall' as [Hall' _]. }
  split.
  { now intros ->. }
  rewrite <- (join_split_newline content), Hsplit.
  change (pre ++ open :: body ++ close :: rest)
    with (pre ++ [open] ++ body ++ close :: rest).
  rewrite app_assoc. apply join_newline_middle.
Qed.

Lemma fenced_block_rendering_holds :
  renderLines ([lit "# Plan"] ++ lit "```" :: [lit "vlan 10"; lit ""; lit " name USERS"]
                 ++ [lit "  ``` "])
  = {| elements :=
         [h1 0 (lit "Plan");
          code_container 5 (lit "vlan 10" ++ LF :: lit "" ++ LF :: lit " name USERS")];
       currentCodeBlock := [];
       isCodeBlock := false |}
  /\ split_newline (lit "vlan 10" ++ LF :: lit "" ++ LF :: lit " name USERS")
     = [lit "vlan 10"; lit ""; lit " name USERS"].
Proof.
  assert (Hbody : Forall notFence [lit "vlan 10"; lit ""; lit " name USERS"])
    by (repeat constructor).
  destruct (proj1 (proj2 (proj2 fenced_block_rendering))
              (lit "# Plan" ++ LF :: lit "```" ++ LF :: lit "vlan 10" ++ LF
                 :: lit "" ++ LF :: lit " name USERS" ++ LF :: lit "  ``` ")
              [lit "# Plan"] (lit "```")
              [lit "vlan 10"; lit ""; lit " name USERS"]
              (lit "  ``` ") [] eq_refl eq_refl eq_refl Hbody eq_refl)
    as (Hblock & _ & Hlines & _).
  split; [exact Hblock|].
  apply Hlines. discriminate.
Defined.

End FencedBlocks.

(* ===================================================================== *)
(** ** The renderer as a whole                                            *)
(* ===================================================================== *)

Module RenderExtras.
Import JS App Spec Props JSFacts RenderFacts LineFacts.

(** The elements pushed so far are a frame for the rest of the loop. *)
Lemma forEach_frame (lines : list jsstring) (i : nat)
    (es : list element) (buf : list jsstring) (c : bool) :
  forEach lines i {| elements := es; currentCodeBlock := buf; isCodeBlock := c |}
  = let r := forEach lines i
               {| elements := []; currentCodeBlock := buf; isCodeBlock := c |} in
    {| elements := es ++ elements r;
       currentCodeBlock := currentCodeBlock r;
       isCodeBlock := isCodeBlock r |}.
Proof.
  revert i es buf c. induction lines as [|x lines IH]; intros i es buf c.
  - simpl. now rewrite app_nil_r.
  - cbn [forEach]. unfold renderLine, push.
    destruct (isFence x), c; cbn [elements currentCodeBlock isCodeBlock app];
      rewrite IH; symmetry; rewrite IH; cbv zeta;
      cbn [elements currentCodeBlock isCodeBlock];
      rewrite <- ?app_assoc; reflexivity.
Qed.

Lemma key_standardElement (line : jsstring) (i : nat) :
  key (standardElement line i) = i.
Proof.
  unfold standardElement.
  repeat match goal with
         | |- context [if ?b then _ else _] => destruct b
         end; reflexivity.
Qed.

(** One line pushes at most one element, and its key is the line index. *)
Lemma renderLine_fresh (x : jsstring) (i : nat) (buf : list jsstring) (c : bool) :
  let st := renderLine {| elements := []; currentCodeBlock := buf; isCodeBlock := c |} x i in
  elements st = [] \/ exists e, elements st = [e] /\ key e = i.
Proof.
  unfold renderLine, push.
  destruct (isFence x), c; cbn [elements app]; auto; right; eexists; split;
    try reflexivity. apply key_standardElement.
Qed.

Lemma forEach_keys (lines : list jsstring) (i : nat) (buf : list jsstring) (c : bool) :
  let ks := map key (elements (forEach lines i
              {| elements := []; currentCodeBlock := buf; isCodeBlock := c |})) in
  StronglySorted lt ks
  /\ Forall (fun k => i <= k < i + length lines)%nat ks
  /\ (length ks <= length lines)%nat.
Proof.
  revert i buf c. induction lines as [|x lines IH]; intros i buf c.
  - simpl. repeat split; constructor.
  - cbn [forEach].
    pose proof (renderLine_fresh x i buf c) as Hfresh. cbv zeta in Hfresh.
    destruct (renderLine _ x i) as [es buf' c'].
    rewrite forEach_frame. cbv zeta. cbn [elements] in *.
    destruct (IH (S i) buf' c') as (Hs & Hb & Hl). cbv zeta in Hs, Hb, Hl.
    assert (Hb' : Forall (fun k => (i <= k < i + length (x :: lines))%nat)
                    (map key (elements (forEach lines (S i)
                       {| elements := []; currentCodeBlock := buf';
                          isCodeBlock := c' |})))).
    { eapply Forall_impl; [|exact Hb]. simpl. intros k Hk. lia. }
    destruct Hfresh as [-> | (e & -> & He)]; cbn [app map].
    + repeat split; auto. simpl. lia.
    + repeat split.
      * constructor; [exact Hs|].
        eapply Forall_impl; [|exact Hb]. simpl. intros k Hk. lia.
      * constructor; [simpl; lia | exact Hb'].
      * simpl. simpl in Hl. lia.
Qed.

Lemma StronglySorted_lt_NoDup (l : list nat) :
  StronglySorted lt l -> NoDup l.
Proof.
  induction 1 as [|a l Hs IH Ha]; constructor; [|exact IH].
  intros Hin. rewrite Forall_forall in Ha. specialize (Ha a Hin). lia.
Qed.

(** X3. The keys of the rendered elements are line indices of the input in
    strictly increasing order: no two elements share a key, and there are
    never more elements than lines. *)
Theorem element_keys (content : jsstring) :
  let ks := map key (MarkdownContent content) in
  StronglySorted lt ks
  /\ Forall (fun k => k < length (split_newline content))%nat ks
  /\ NoDup ks
  /\ (length (MarkdownContent content) <= length (split_newline content))%nat.
Proof.
  unfold MarkdownContent, renderLines, init.
  destruct (forEach_keys (split_newline content) 0 [] false) as (Hs & Hb & Hl).
  cbv zeta in *. repeat split.
  - exact Hs.
  - eapply Forall_impl; [|exact Hb]. simpl. intros k Hk. lia.
  - now apply StronglySorted_lt_NoDup.
  - now rewrite length_map in Hl.
Qed.

Lemma forEach_no_fence (lines : list jsstring) (i : nat)
    (es : list element) (buf : list jsstring) :
  Forall notFence lines ->
  forEach lines i {| elements := es; currentCodeBlock := buf; isCodeBlock := false |}
  = {| elements := es ++ map_idx standardElement lines i;
       currentCodeBlock := buf;
       isCodeBlock := false |}.
Proof.
  intros Hall. revert i es. induction Hall as [|x lines Hx Hall IH]; intros i es.
  - simpl. now rewrite app_nil_r.
  - cbn [forEach map_idx].
    rewrite (renderLine_standard
               {| elements := es; currentCodeBlock := buf; isCodeBlock := false |}
               x i Hx eq_refl).
    unfold push.
    cbn [elements currentCodeBlock isCodeBlock].
    rewrite IH. now rewrite <- app_assoc.
Qed.

Lemma length_map_idx {A B} (f : A -> nat -> B) (a : list A) (n : nat) :
  length (map_idx f a n) = length a.
Proof.
  revert n. induction a as [|x a IH]; intros n; [reflexivity|].
  cbn [map_idx length]. now rewrite IH.
Qed.

(** X4. A text without a fence line is rendered line by line: one element
    per line, each the classification of its own line. *)
Theorem no_fence_linewise (content : jsstring) :
  Forall notFence (split_newline content) ->
  MarkdownContent content = map_idx standardElement (split_newline content) 0
  /\ length (MarkdownContent content) = length (split_newline content).
Proof.
  intros Hall.
  assert (Hmc : MarkdownContent content
                = map_idx standardElement (split_newline content) 0).
  { unfold MarkdownContent, renderLines, init.
    now rewrite forEach_no_fence by exact Hall. }
  split; [exact Hmc|]. rewrite Hmc. apply length_map_idx.
Qed.

Lemma no_fence_linewise_holds :
  MarkdownContent (lit "# Plan" ++ LF :: lit "" ++ LF :: lit "- item")
  = map_idx standardElement [lit "# Plan"; lit ""; lit "- item"] 0.
Proof.
  refine (proj1 (no_fence_linewise
                   (lit "# Plan" ++ LF :: lit "" ++ LF :: lit "- item") _)).
  repeat constructor.
Defined.

Lemma split_newline_append (a b : jsstring) :
  split_newline (a ++ LF :: b) = split_newline a ++ split_newline b.
Proof.
  induction a as [|c a IH]; [reflexivity|].
  cbn [app split_newline]. rewrite IH.
  destruct (c =? 10); [reflexivity|].
  pose proof (split_newline_not_nil a) as Hne.
  destruct (split_newline a); [congruence | reflexivity].
Qed.

(** X5. Rendering composes: when a text ends outside a code block, the
    rendering of that text followed by a line feed and more text is the
    rendering of the first, then the rendering of the second with its line
    indices continuing after those of the first. *)
Theorem render_append (a b : jsstring) :
  isCodeBlock (renderLines (split_newline a)) = false ->
  MarkdownContent (a ++ LF :: b)
  = MarkdownContent a
      ++ elements (forEach (split_newline b) (length (split_newline a)) init).
Proof.
  intros Hout. unfold MarkdownContent. rewrite split_newline_append.
  unfold renderLines at 1. rewrite forEach_app. fold (renderLines (split_newline a)).
  pose proof (renderLines_bufferInv (split_newline a) Hout) as Hbuf.
  destruct (renderLines (split_newline a)) as [es buf c].
  cbn [isCodeBlock currentCodeBlock elements] in *. subst buf c.
  now rewrite forEach_frame.
Qed.

Lemma render_append_holds :
  MarkdownContent (lit "## Setup" ++ LF :: lit "1. rack the switch")
  = [h2 0 (lit "Setup"); li_decimal 1 (lit "rack the switch")].
Proof.
  rewrite (render_append (lit "## Setup") (lit "1. rack the switch") eq_refl).
  reflexivity.
Defined.

Lemma standardElement_not_code (line : jsstring) (i : nat) :
  isCode (standardElement line i) = false.
Proof.
  unfold standardElement.
  repeat match goal with
         | |- context [if ?b then _ else _] => destruct b
         end; reflexivity.
Qed.

Lemma forEach_fences (lines : list jsstring) (i : nat) (buf : list jsstring) (c : bool) :
  let r := forEach lines i
             {| elements := []; currentCodeBlock := buf; isCodeBlock := c |} in
  isCodeBlock r = xorb c (Nat.odd (fenceCount lines))
  /\ length (filter isCode (elements r))
     = ((fenceCount lines + if c then 1 else 0) / 2)%nat.
Proof.
  revert i buf c. induction lines as [|x lines IH]; intros i buf c.
  - cbn. destruct c; split; reflexivity.
  - cbn [forEach]. unfold fenceCount in *. cbn [filter].
    unfold renderLine, push.
    destruct (isFence x) eqn:Hx, c;
      cbn [elements currentCodeBlock isCodeBlock app length];
      set (n := length (filter isFence lines)) in *.
    + (* a closing fence *)
      rewrite forEach_frame. cbv zeta.
      destruct (IH (S i) [] false) as [Hc Hn]. cbv zeta in Hc, Hn.
      cbn [elements isCodeBlock app filter isCode length]. rewrite Hc, Hn.
      rewrite Nat.odd_succ, <- Nat.negb_odd. split.
      * now destruct (Nat.odd n).
      * replace (S n + 1)%nat with (n + 0 + 1 * 2)%nat by lia.
        rewrite Nat.div_add by lia. lia.
    + (* an opening fence *)
      destruct (IH (S i) buf true) as [Hc Hn]. cbv zeta in Hc, Hn.
      rewrite Hc, Hn. rewrite Nat.odd_succ, <- Nat.negb_odd. split.
      * now destruct (Nat.odd n).
      * f_equal. lia.
    + (* a line of the block *)
      exact (IH (S i) (buf ++ [x]) true).
    + (* a line outside *)
      rewrite forEach_frame. cbv zeta.
      destruct (IH (S i) buf false) as [Hc Hn]. cbv zeta in Hc, Hn.
      cbn [elements isCodeBlock app filter]. rewrite standardElement_not_code.
      now rewrite Hc, Hn.
Qed.

(** X6. Fence lines pair up in order: the output holds one code container
    for every two fence lines, and the input ends inside a code block
    exactly when the number of its fence lines is odd. *)
Theorem fences_pair_up (content : jsstring) :
  let n := fenceCount (split_newline content) in
  length (filter isCode (MarkdownContent content)) = (n / 2)%nat
  /\ isCodeBlock (renderLines (split_newline content)) = Nat.odd n.
Proof.
  unfold MarkdownContent, renderLines, init.
  destruct (forEach_fences (split_newline content) 0 [] false) as [Hc Hn].
  cbv zeta in *. rewrite Hc, Hn, Nat.add_0_r. split; reflexivity.
Qed.

End RenderExtras.

(* ===================================================================== *)
(** ** Classification of a line                                           *)
(* ===================================================================== *)

Module ClassifyExtras.
Import JS App Spec Props JSFacts RenderFacts.

Lemma whiteSpace_differs (c k : N) :
  isWhiteSpace k = false -> isWhiteSpace c = true -> (c =? k) = false.
Proof. intros Hk Hc. apply N.eqb_neq. intros ->. congruence. Qed.

Lemma digit_not_whiteSpace (c : N) : isDigit c = true -> isWhiteSpace c = false.
Proof.
  intros Hd. apply isDigit_range in Hd. unfold isWhiteSpace, isLineTerminator.
  repeat match goal with
         | |- context [N.eqb c ?k] =>
             replace (N.eqb c k) with false by (symmetry; apply N.eqb_neq; lia)
         end.
  replace (8192 <=? c) with false by (symmetry; apply N.leb_gt; lia).
  reflexivity.
Qed.

Lemma whiteSpace_not_digit (c : N) : isWhiteSpace c = true -> isDigit c = false.
Proof.
  intros Hc. destruct (isDigit c) eqn:Hd; [|reflexivity].
  apply digit_not_whiteSpace in Hd. congruence.
Qed.

Lemma dropWhile_allWhiteSpace (ws s : jsstring) :
  allWhiteSpace ws ->
  dropWhile isWhiteSpace (ws ++ s) = dropWhile isWhiteSpace s.
Proof.
  induction 1 as [|c ws Hc Hws IH]; [reflexivity|].
  cbn [app dropWhile]. now rewrite Hc.
Qed.

Lemma dropWhile_startsBlack (s : jsstring) :
  startsBlack s -> dropWhile isWhiteSpace s = s.
Proof. destruct s as [|c s]; simpl; [reflexivity|]. now intros ->. Qed.

Lemma trim_indented (ws line : jsstring) :
  allWhiteSpace ws -> trim (ws ++ line) = trim line.
Proof. intros Hall. unfold trim. now rewrite dropWhile_allWhiteSpace. Qed.

Lemma standardElement_indented (c : N) (ws line : jsstring) (i : nat) :
  allWhiteSpace (c :: ws) ->
  standardElement ((c :: ws) ++ line) i
  = if JS.eqb (trim line) [] then spacer i
    else p i (formattedText ((c :: ws) ++ line)).
Proof.
  intros Hall. pose proof (trim_indented _ line Hall) as Htrim.
  inversion Hall as [|? ? Hc Hws]; subst.
  unfold standardElement. rewrite Htrim.
  unfold match_ordered_marker, exec_ordered_marker.
  cbn [app takeWhile lit list_ascii_of_string map startsWith].
  rewrite (whiteSpace_not_digit c Hc).
  rewrite !(whiteSpace_differs c) by (exact Hc || reflexivity).
  reflexivity.
Qed.

(** X7. Indentation counts for headings and list items but not for fences:
    a line that begins with white space is a fence exactly when it is one
    without the white space, and outside a code block it is never a
    heading or a list item, only a spacer or a paragraph. *)
Theorem indented_line (c : N) (ws line : jsstring) (i : nat) :
  allWhiteSpace (c :: ws) ->
  isFence ((c :: ws) ++ line) = isFence line
  /\ standardElement ((c :: ws) ++ line) i
     = if JS.eqb (trim line) [] then spacer i
       else p i (formattedText ((c :: ws) ++ line)).
Proof.
  intros Hall. split.
  - unfold isFence. now rewrite trim_indented.
  - now apply standardElement_indented.
Qed.

Lemma indented_line_holds :
  isFence (lit "   ```bash") = isFence (lit "```bash")
  /\ standardElement (lit "  # Title") 4 = p 4 [text_part (lit "  # Title")].
Proof.
  split.
  - refine (proj1 (indented_line 32 (lit "  ") (lit "```bash") 0 _)).
    repeat constructor.
  - refine (proj2 (indented_line 32 (lit " ") (lit "# Title") 4 _)).
    repeat constructor.
Defined.

(** X8. An ordered-list marker that is followed by white space is removed
    with all of that white space: the item text is what follows. *)
Theorem ordered_marker_stripped
    (d w : N) (ds ws rest : jsstring) (i : nat) :
  forallb isDigit (d :: ds) = true ->
  allWhiteSpace (w :: ws) ->
  startsBlack rest ->
  standardElement ((d :: ds) ++ 46 :: (w :: ws) ++ rest) i = li_decimal i rest.
Proof.
  intros Hds Hws Hrest.
  assert (Hd : 48 <= d <= 57).
  { simpl in Hds. apply andb_true_iff in Hds as [Hd _].
    now apply isDigit_range. }
  assert (Hne : forall k, k < 48 -> (d =? k) = false).
  { intros k Hk. apply N.eqb_neq. lia. }
  inversion Hws as [|? ? Hw Hws']; subst.
  unfold standardElement, match_ordered_marker, replace_ordered_marker,
    exec_ordered_marker.
  rewrite (takeWhile_digits _ _ Hds), (dropWhile_digits _ _ Hds).
  cbn [app]. cbn [lit list_ascii_of_string map startsWith].
  rewrite !Hne by (vm_compute; reflexivity). cbn [andb orb].
  rewrite Hw, dropWhile_allWhiteSpace by exact Hws'.
  now rewrite dropWhile_startsBlack.
Qed.

Lemma ordered_marker_stripped_holds :
  standardElement (lit "10" ++ 46 :: lit "  " ++ lit "Risk Analysis") 9
  = li_decimal 9 (lit "Risk Analysis").
Proof.
  refine (ordered_marker_stripped
            49 32 (lit "0") (lit " ") (lit "Risk Analysis") 9 eq_refl _ eq_refl).
  repeat constructor.
Defined.

Lemma dropWhile_nil_iff (f : N -> bool) (s : jsstring) :
  dropWhile f s = [] <-> Forall (fun c => f c = true) s.
Proof.
  induction s as [|c s IH]; simpl.
  - split; auto.
  - destruct (f c) eqn:Hc.
    + rewrite IH. split; [now constructor | now inversion 1].
    + split; [discriminate | inversion 1; congruence].
Qed.

Lemma dropWhile_head (f : N -> bool) (s t : jsstring) (c : N) :
  dropWhile f s = c :: t -> f c = false.
Proof.
  induction s as [|d s IH]; simpl; [discriminate|].
  destruct (f d) eqn:Hd; [exact IH | congruence].
Qed.

Lemma trim_nil_iff (s : jsstring) : trim s = [] <-> allWhiteSpace s.
Proof.
  unfold trim, allWhiteSpace. split.
  - intros Htrim. apply dropWhile_nil_iff.
    destruct (dropWhile isWhiteSpace s) as [|c t] eqn:Hd; [reflexivity|].
    apply dropWhile_head in Hd. exfalso.
    assert (Hrev : rev (rev (dropWhile isWhiteSpace (rev (c :: t)))) = rev [])
      by now rewrite Htrim.
    rewrite rev_involutive in Hrev. cbn [rev] in Hrev.
    rewrite dropWhile_snoc_false in Hrev by exact Hd.
    now destruct (dropWhile isWhiteSpace (rev t)).
  - intros Hall. apply dropWhile_nil_iff in Hall. now rewrite Hall.
Qed.

(** X9. A line outside a code block becomes a spacer exactly when it is
    empty or holds only white space, and those are the inputs for which the
    submit guard takes the text for blank. *)
Theorem spacer_iff_whiteSpace (line : jsstring) (i : nat) :
  (standardElement line i = spacer i <-> allWhiteSpace line)
  /\ (Component.isBlank line = true <-> allWhiteSpace line).
Proof.
  split.
  - split.
    + unfold standardElement.
      repeat match goal with
             | |- context [if ?b then _ else _] => destruct b eqn:?
             end; try discriminate.
      intros _. apply trim_nil_iff.
      match goal with
      | H : JS.eqb (trim line) _ = true |- _ =>
          now destruct (eqb_spec (trim line) (lit "")) as [Ht|]; [exact Ht|]
      end.
    + intros Hall. destruct line as [|c ws]; [reflexivity|].
      rewrite <- (app_nil_r (c :: ws)).
      rewrite (standardElement_indented c ws [] i Hall). reflexivity.
  - unfold Component.isBlank. rewrite <- trim_nil_iff.
    destruct (trim line); split; congruence.
Qed.

(** X10. The heading and unordered-list prefixes are removed whatever the
    text after them: one, two or three hashes and a space give the heading
    of that level with the rest of the line, a dash or a star and a space
    give an unordered item with the rest of the line. *)
Theorem prefixes_stripped (t : jsstring) (i : nat) :
  standardElement (lit "# " ++ t) i = h1 i t
  /\ standardElement (lit "## " ++ t) i = h2 i t
  /\ standardElement (lit "### " ++ t) i = h3 i t
  /\ standardElement (lit "- " ++ t) i = li_disc i t
  /\ standardElement (lit "* " ++ t) i = li_disc i t.
Proof. repeat split. Qed.

End ClassifyExtras.

(* ===================================================================== *)
(** ** Bold spans                                                         *)
(* ===================================================================== *)

Module BoldExtras.
Import JS App Spec Props JSFacts.

(** The bold pattern at the head of a text, by its first two characters. *)
Lemma exec_bold_head (s : jsstring) :
  exec_bold s = if startsWith s [42; 42] then exec_lazy_close (skipn 2 s) else None.
Proof.
  destruct s as [|x [|y u]]; cbn [startsWith skipn].
  - reflexivity.
  - destruct (N.eqb_spec x 42) as [->|Hx]; [reflexivity|].
    rewrite andb_false_l. unfold exec_bold.
    destruct x as [|q]; [reflexivity|].
    do 6 (try (destruct q as [q|q|]; try reflexivity)); try congruence.
  - destruct (N.eqb_spec x 42) as [->|Hx].
    + destruct (N.eqb_spec y 42) as [->|Hy]; [reflexivity|].
      cbn [andb]. unfold exec_bold.
      destruct y as [|q]; [reflexivity|].
      do 6 (try (destruct q as [q|q|]; try reflexivity)); try congruence.
    + rewrite andb_false_l. unfold exec_bold.
      destruct x as [|q]; [reflexivity|].
      do 6 (try (destruct q as [q|q|]; try reflexivity)); try congruence.
Qed.

Lemma exec_bold_not_star (x : N) (t : jsstring) :
  x <> 42 -> exec_bold (x :: t) = None.
Proof.
  intros Hx. rewrite exec_bold_head. cbn [startsWith].
  apply N.eqb_neq in Hx. now rewrite Hx.
Qed.

(** The split walks over text without a star. *)
Lemma split_bold_from_noStar (a seg s : jsstring) :
  noStar a -> split_bold_from seg (a ++ s) = split_bold_from (seg ++ a) s.
Proof.
  intros Ha. revert seg. induction Ha as [|x a Hx Ha IH]; intros seg.
  - now rewrite app_nil_r.
  - cbn [app]. simp split_bold_from. rewrite (exec_bold_not_star x (a ++ s) Hx). simpl.
    rewrite IH. now rewrite <- app_assoc.
Qed.

Lemma exec_lazy_close_noStar (b c : jsstring) :
  noStar b -> noLineTerminator b ->
  exec_lazy_close (b ++ 42 :: 42 :: c) = Some (length b).
Proof.
  intros Hb. induction Hb as [|x b Hx Hb IH]; intros Hlt.
  - reflexivity.
  - inversion Hlt as [|? ? Hxl Hlt']; subst.
    cbn [app exec_lazy_close startsWith]. apply N.eqb_neq in Hx.
    rewrite Hx, Hxl, IH by exact Hlt'. reflexivity.
Qed.

(** X11. The split by the bold pattern loses no text: the parts, put
    together again, are the line. *)
Theorem split_bold_concat (s : jsstring) : concat (split_bold s) = s.
Proof.
  unfold split_bold.
  enough (H : forall seg, concat (split_bold_from seg s) = seg ++ s)
    by exact (H []).
  intros seg. funelim (split_bold_from seg s).
  - simpl. now rewrite app_nil_r.
  - cbn [concat]. rewrite H, app_nil_l, firstn_skipn. reflexivity.
  - rewrite H. now rewrite <- app_assoc.
Qed.

Lemma split_bold_from_match (seg s : jsstring) (k : nat) :
  exec_bold s = Some k ->
  split_bold_from seg s
  = seg :: firstn (4 + k) s :: split_bold_from [] (skipn (4 + k) s).
Proof.
  intros Hk. destruct s as [|c t]; [discriminate|].
  simp split_bold_from. rewrite Hk. reflexivity.
Qed.

Lemma firstn_exact {A} (l1 l2 : list A) : firstn (length l1) (l1 ++ l2) = l1.
Proof. induction l1 as [|x l1 IH]; simpl; [now destruct l2 | now rewrite IH]. Qed.

Lemma skipn_exact {A} (l1 l2 : list A) : skipn (length l1) (l1 ++ l2) = l2.
Proof. induction l1 as [|x l1 IH]; simpl; [reflexivity | exact IH]. Qed.

Lemma formatPart_noStar (a : jsstring) (idx : nat) :
  noStar a -> formatPart a idx = text_part a.
Proof.
  intros Ha. unfold formatPart. change (lit "**") with [42; 42].
  destruct Ha as [|x a Hx Ha]; [reflexivity|].
  cbn [startsWith]. apply N.eqb_neq in Hx. now rewrite Hx.
Qed.

(** X12. A paragraph line of the form a, two stars, b, two stars, c, where
    a, b and c hold no star and b no line terminator, is split into
    exactly three spans: a as it is, b in bold without the stars, c as it
    is. *)
Theorem bold_span_between_stars (a b c : jsstring) :
  noStar a -> noStar b -> noLineTerminator b -> noStar c ->
  split_bold (a ++ lit "**" ++ b ++ lit "**" ++ c)
  = [a; lit "**" ++ b ++ lit "**"; c]
  /\ formattedText (a ++ lit "**" ++ b ++ lit "**" ++ c)
     = [text_part a; strong 1 b; text_part c].
Proof.
  intros Ha Hb Hlt Hc. change (lit "**") with [42; 42].
  assert (Hsplit : split_bold (a ++ [42; 42] ++ b ++ [42; 42] ++ c)
                   = [a; [42; 42] ++ b ++ [42; 42]; c]).
  { unfold split_bold. rewrite (split_bold_from_noStar a _ _ Ha).
    rewrite (split_bold_from_match _ _ (length b)).
    - replace ([42; 42] ++ b ++ [42; 42] ++ c)
        with (([42; 42] ++ b ++ [42; 42]) ++ c)
        by (now rewrite <- !app_assoc).
      replace (4 + length b)%nat with (length ([42; 42] ++ b ++ [42; 42]))
        by (cbn [app length]; rewrite length_app; simpl; lia).
      rewrite firstn_exact, skipn_exact.
      rewrite <- (app_nil_r c) at 1.
      rewrite (split_bold_from_noStar c _ _ Hc). simp split_bold_from.
      reflexivity.
    - rewrite exec_bold_head. cbn [app startsWith skipn].
      rewrite N.eqb_refl. cbn [andb].
      now apply exec_lazy_close_noStar. }
  split; [exact Hsplit|].
  unfold formattedText. rewrite Hsplit. cbn [map_idx].
  rewrite (formatPart_noStar a _ Ha), (formatPart_noStar c _ Hc).
  repeat f_equal. unfold formatPart. change (lit "**") with [42; 42].
  replace (endsWith ([42; 42] ++ b ++ [42; 42]) [42; 42]) with true
    by (symmetry; apply endsWith_app; exists ([42; 42] ++ b);
        now rewrite <- app_assoc).
  cbn [app startsWith]. rewrite N.eqb_refl. cbn [andb].
  now rewrite slice_inner.
Qed.

Lemma bold_span_between_stars_holds :
  formattedText (lit "Hello " ++ lit "**" ++ lit "world" ++ lit "**" ++ lit " now")
  = [text_part (lit "Hello "); strong 1 (lit "world"); text_part (lit " now")].
Proof.
  refine (proj2 (bold_span_between_stars
                   (lit "Hello ") (lit "world") (lit " now") _ _ _ _));
    repeat constructor; discriminate.
Defined.

End BoldExtras.

(* ===================================================================== *)
(** ** More on the generation call                                        *)
(* ===================================================================== *)

Module ServiceExtras.
Import JS GeminiService Spec Props ServiceFacts.

(** X13. When the outbound call succeeds with a text that is not empty,
    [generateBlueprint] returns that text unchanged, issues the one
    request and logs nothing. *)
Theorem generateBlueprint_payload
    (deviceModel : jsstring) (ep : endpoint) (response : GenerateContentResponse)
    (c : N) (s : jsstring) :
  ep (request deviceModel) = Returns response ->
  text response = Some (c :: s) ->
  run (generateBlueprint deviceModel) ep
  = ([OutboundRequest (request deviceModel)], Returns (c :: s)).
Proof.
  intros Hep Htext. now rewrite generateBlueprint_run, Hep, Htext.
Qed.

Lemma generateBlueprint_payload_holds :
  run (generateBlueprint (lit "FortiGate 60F"))
      (fun _ => Returns {| text := Some (lit "# Device Overview") |})
  = ([OutboundRequest (request (lit "FortiGate 60F"))],
     Returns (lit "# Device Overview")).
Proof.
  exact (generateBlueprint_payload
           (lit "FortiGate 60F")
           (fun _ => Returns {| text := Some (lit "# Device Overview") |})
           {| text := Some (lit "# Device Overview") |}
           35 (lit " Device Overview") eq_refl eq_refl).
Defined.

Lemma or_else_not_empty (v : option jsstring) (d : jsstring) :
  d <> [] -> or_else v d <> [].
Proof. destruct v as [[|c s]|]; simpl; auto; discriminate. Qed.

(** X14. A text returned by [generateBlueprint] is never empty, and a call
    that returns has logged nothing: its only effect is the one request. *)
Theorem generateBlueprint_returns_text
    (deviceModel : jsstring) (ep : endpoint) (result : jsstring) :
  snd (run (generateBlueprint deviceModel) ep) = Returns result ->
  result <> []
  /\ fst (run (generateBlueprint deviceModel) ep)
     = [OutboundRequest (request deviceModel)].
Proof.
  rewrite generateBlueprint_run.
  destruct (ep (request deviceModel)) as [response|err]; simpl;
    [|discriminate].
  intros [= <-]. split; [|reflexivity].
  apply or_else_not_empty. discriminate.
Qed.

Lemma generateBlueprint_returns_text_holds :
  lit "Failed to generate blueprint content." <> []
  /\ fst (run (generateBlueprint (lit "FortiGate 60F"))
              (fun _ => Returns {| text := None |}))
     = [OutboundRequest (request (lit "FortiGate 60F"))].
Proof.
  exact (generateBlueprint_returns_text
           (lit "FortiGate 60F") (fun _ => Returns {| text := None |})
           (lit "Failed to generate blueprint content.") eq_refl).
Defined.

(** X15. The request depends on the device model through the prompt only,
    and the prompt determines the device model: two calls send the same
    request exactly when they are for the same device model. *)
Theorem request_determines_deviceModel (d1 d2 : jsstring) :
  model (request d1) = model (request d2)
  /\ config (request d1) = config (request d2)
  /\ (request d1 = request d2 <-> d1 = d2).
Proof.
  split; [reflexivity|]. split; [reflexivity|]. split; [|now intros ->].
  intros Heq. apply (f_equal contents) in Heq.
  unfold request, contents, prompt in Heq.
  apply app_inv_head in Heq. now apply app_inv_tail in Heq.
Qed.

End ServiceExtras.

(* ===================================================================== *)
(** ** More on the history list                                           *)
(* ===================================================================== *)

Module HistoryExtras.
Import JS Types App Spec Props JSFacts HistoryFacts.

Lemma filter_all {A} (f : A -> bool) (l : list A) :
  Forall (fun x => f x = true) l -> filter f l = l.
Proof.
  induction 1 as [|x l Hx Hl IH]; simpl; [reflexivity|].
  now rewrite Hx, IH.
Qed.

Lemma otherModel_iff (blueprint h : Blueprint) :
  otherModel blueprint h = true <-> deviceModel h <> deviceModel blueprint.
Proof.
  unfold otherModel. rewrite negb_true_iff.
  destruct (eqb_spec (deviceModel h) (deviceModel blueprint)); split;
    congruence.
Qed.

Lemma saveToHistory_unfold (history : list Blueprint) (blueprint : Blueprint) :
  saveToHistory history blueprint
  = blueprint :: firstn 9 (filter (otherModel blueprint) history).
Proof. reflexivity. Qed.

Lemma filter_length_le {A} (f : A -> bool) (l : list A) :
  (length (filter f l) <= length l)%nat.
Proof.
  induction l as [|x l IH]; simpl; [lia|]. destruct (f x); simpl; lia.
Qed.

Lemma filter_length_lt {A} (f : A -> bool) (l : list A) (x : A) :
  In x l -> f x = false -> (length (filter f l) < length l)%nat.
Proof.
  induction l as [|y l IH]; simpl; [tauto|].
  intros [-> | Hin] Hx.
  - rewrite Hx. pose proof (filter_length_le f l). lia.
  - specialize (IH Hin Hx). destruct (f y); simpl; lia.
Qed.

(** X16. Saving the same record twice in a row changes nothing the second
    time. *)
Theorem saveToHistory_idempotent (history : list Blueprint) (blueprint : Blueprint) :
  saveToHistory (saveToHistory history blueprint) blueprint
  = saveToHistory history blueprint.
Proof.
  rewrite !saveToHistory_unfold.
  set (kept := firstn 9 (filter (otherModel blueprint) history)).
  cbn [filter]. unfold otherModel at 1. rewrite eqb_refl. cbn [negb].
  rewrite filter_all.
  - unfold kept. rewrite firstn_firstn. reflexivity.
  - unfold kept. apply Forall_firstn.
    apply Forall_forall. intros e He. now apply filter_In in He.
Qed.

(** X17. A record for a device model that is not in the history goes on top
    of the unchanged list, and only what stood in the tenth place or
    later is dropped. *)
Theorem saveToHistory_new_model (history : list Blueprint) (blueprint : Blueprint) :
  ~ In (deviceModel blueprint) (models history) ->
  saveToHistory history blueprint = blueprint :: firstn 9 history
  /\ length (saveToHistory history blueprint) = Nat.min 10 (S (length history)).
Proof.
  intros Hnew.
  assert (Hall : filter (otherModel blueprint) history = history).
  { apply filter_all, Forall_forall. intros e He.
    apply otherModel_iff. intros Heq. apply Hnew.
    unfold models. rewrite <- Heq. now apply in_map. }
  rewrite saveToHistory_unfold, Hall. split; [reflexivity|].
  cbn [length]. rewrite length_firstn. lia.
Qed.

Lemma saveToHistory_new_model_holds :
  saveToHistory storedHistory (record 7 "Juniper EX2300")
  = record 7 "Juniper EX2300" :: firstn 9 storedHistory.
Proof.
  refine (proj1 (saveToHistory_new_model storedHistory
                   (record 7 "Juniper EX2300") _)).
  simpl. intuition discriminate.
Defined.

(** X18. A record for a device model that is already in a history of at most
    ten entries replaces the entries of that model: the new record is on
    top, every entry of another model is kept in its order, and the list
    does not grow. *)
Theorem saveToHistory_known_model (history : list Blueprint) (blueprint : Blueprint) :
  In (deviceModel blueprint) (models history) ->
  (length history <= 10)%nat ->
  saveToHistory history blueprint
  = blueprint :: filter (otherModel blueprint) history
  /\ (length (saveToHistory history blueprint) <= length history)%nat.
Proof.
  intros Hin Hlen.
  apply in_map_iff in Hin as (old & Hold & Hin).
  assert (Hlt : (length (filter (otherModel blueprint) history)
                 < length history)%nat).
  { apply (filter_length_lt _ _ old Hin).
    unfold otherModel. now rewrite Hold, eqb_refl. }
  rewrite saveToHistory_unfold.
  rewrite firstn_all2 by lia. split; [reflexivity|].
  cbn [length]. lia.
Qed.

Lemma saveToHistory_known_model_holds :
  saveToHistory storedHistory (record 8 "MikroTik CCR2004")
  = [record 8 "MikroTik CCR2004"; record 1 "Cisco Catalyst 9300"].
Proof.
  refine (proj1 (saveToHistory_known_model storedHistory
                   (record 8 "MikroTik CCR2004") _ _)).
  - simpl. auto.
  - simpl. lia.
Defined.

End HistoryExtras.

(* ===================================================================== *)
(** ** The component: one submission                                      *)
(* ===================================================================== *)

Module ComponentFacts.
Import JS GeminiService Spec Props JSFacts HistoryFacts ServiceFacts.
Import Component.

(** What a settling call does, by what the endpoint, [randomUUID] and the
    storage write do. *)
Lemma handleGenerate_settle_run (q : pending) (ep : endpoint) (ck : clock) (st : state) :
  handleGenerate_settle q ep ck st =
    match ep (request (seenDeviceModel q)) with
    | Returns response =>
        match randomUUID ck with
        | Returns uuid =>
            let newBlueprint :=
              {| Types.id := uuid;
                 Types.deviceModel := seenDeviceModel q;
                 Types.content :=
                   or_else (text response)
                           (lit "Failed to generate blueprint content.");
                 Types.timestamp := now ck |} in
            let newHistory := App.saveToHistory (seenHistory q) newBlueprint in
            let shown :=
              setHistory newHistory (setCurrentBlueprint (Some newBlueprint) st) in
            match setItem ck (lit "paknet_history") newHistory with
            | Returns _ =>
                ([Service (OutboundRequest (request (seenDeviceModel q)));
                  LocalStorageSetItem (lit "paknet_history") newHistory;
                  ScrollResultsIntoView 100],
                 setLoading false shown)
            | Throws err =>
                ([Service (OutboundRequest (request (seenDeviceModel q)))],
                 caught err shown)
            end
        | Throws err =>
            ([Service (OutboundRequest (request (seenDeviceModel q)))],
             caught err st)
        end
    | Throws err =>
        ([Service (OutboundRequest (request (seenDeviceModel q)));
          Service (ConsoleError (lit "Gemini API Error:") err)],
         setLoading false
           (setError
              (Some (lit "Unable to reach PakNet AI services. Please verify your connection."))
              st))
    end.
Proof.
  unfold handleGenerate_settle. rewrite generateBlueprint_run.
  destruct (ep (request (seenDeviceModel q))) as [response|err];
    [|reflexivity].
  destruct (randomUUID ck) as [uuid|err]; [|reflexivity].
  cbv zeta. unfold saveToHistory.
  destruct (setItem ck _ _); reflexivity.
Qed.

(** X19. A submission whose input is empty or only white space does
    nothing: no request, no effect, and every state cell as it was. *)
Theorem handleGenerate_blank (ep : endpoint) (ck : clock) (st : state) :
  isBlank (deviceModel st) = true ->
  handleGenerate ep ck st = ([], st).
Proof.
  intros Hblank. unfold handleGenerate, handleGenerate_start.
  now rewrite Hblank.
Qed.

Lemma handleGenerate_blank_holds :
  handleGenerate (fun _ => Returns {| text := Some (lit "# A") |})
                 sampleClock (typed "   ")
  = ([], typed "   ").
Proof. exact (handleGenerate_blank _ sampleClock (typed "   ") eq_refl). Defined.

(** X20. A submission that the endpoint answers, for which [randomUUID]
    returns an identifier and the storage write succeeds, ends with the new
    record displayed and on top of the history that is written to local
    storage; the record carries the input as typed, not trimmed, and the
    returned text, or the fallback text when the payload was empty; the
    error is cleared and loading is over. *)
Theorem handleGenerate_success
    (ep : endpoint) (ck : clock) (st : state)
    (response : GenerateContentResponse) (uuid : jsstring) :
  isBlank (deviceModel st) = false ->
  ep (request (deviceModel st)) = Returns response ->
  randomUUID ck = Returns uuid ->
  let newBlueprint :=
    {| Types.id := uuid;
       Types.deviceModel := deviceModel st;
       Types.content :=
         or_else (text response) (lit "Failed to generate blueprint content.");
       Types.timestamp := now ck |} in
  let newHistory := App.saveToHistory (history st) newBlueprint in
  setItem ck (lit "paknet_history") newHistory = Returns tt ->
  handleGenerate ep ck st =
    ([Service (OutboundRequest (request (deviceModel st)));
      LocalStorageSetItem (lit "paknet_history") newHistory;
      ScrollResultsIntoView 100],
     {| deviceModel := deviceModel st;
        loading := false;
        currentBlueprint := Some newBlueprint;
        history := newHistory;
        error := None;
        copying := copying st |}).
Proof.
  intros Hblank Hep Huuid newBlueprint newHistory Hset.
  unfold handleGenerate, handleGenerate_start.
  rewrite Hblank, handleGenerate_settle_run. cbn [seenDeviceModel seenHistory].
  rewrite Hep, Huuid. cbv zeta.
  cbn [history setCurrentBlueprint setError setLoading].
  fold newBlueprint. fold newHistory. rewrite Hset. reflexivity.
Qed.

Lemma handleGenerate_success_holds :
  snd (handleGenerate (fun _ => Returns {| text := Some [] |})
                      sampleClock (typed " MikroTik CCR2004"))
  = {| deviceModel := lit " MikroTik CCR2004";
       loading := false;
       currentBlueprint :=
         Some {| Types.id := lit "3f2b8c1e-0000-4000-8000-000000000001";
                 Types.deviceModel := lit " MikroTik CCR2004";
                 Types.content := lit "Failed to generate blueprint content.";
                 Types.timestamp := now sampleClock |};
       history :=
         {| Types.id := lit "3f2b8c1e-0000-4000-8000-000000000001";
            Types.deviceModel := lit " MikroTik CCR2004";
            Types.content := lit "Failed to generate blueprint content.";
            Types.timestamp := now sampleClock |} :: storedHistory;
       error := None;
       copying := false |}.
Proof.
  rewrite (handleGenerate_success
             (fun _ => Returns {| text := Some [] |}) sampleClock
             (typed " MikroTik CCR2004") {| text := Some [] |}
             (lit "3f2b8c1e-0000-4000-8000-000000000001")
             eq_refl eq_refl eq_refl eq_refl).
  reflexivity.
Defined.



(** X21. A submission on which the endpoint throws, whatever it throws, ends
    with the one fixed message as the error, nothing displayed, the
    history as it was and nothing written to local storage; loading is
    over and the error banner is shown. *)
Theorem handleGenerate_failure
    (ep : endpoint) (ck : clock) (st : state) (err : js_thrown) :
  isBlank (deviceModel st) = false ->
  ep (request (deviceModel st)) = Throws err ->
  handleGenerate ep ck st =
    ([Service (OutboundRequest (request (deviceModel st)));
      Service (ConsoleError (lit "Gemini API Error:") err)],
     {| deviceModel := deviceModel st;
        loading := false;
        currentBlueprint := None;
        history := history st;
        error :=
          Some (lit "Unable to reach PakNet AI services. Please verify your connection.");
        copying := copying st |})
  /\ showError (snd (handleGenerate ep ck st)) = true.
Proof.
  intros Hblank Hep.
  assert (Hrun : handleGenerate ep ck st =
    ([Service (OutboundRequest (request (deviceModel st)));
      Service (ConsoleError (lit "Gemini API Error:") err)],
     {| deviceModel := deviceModel st;
        loading := false;
        currentBlueprint := None;
        history := history st;
        error :=
          Some (lit "Unable to reach PakNet AI services. Please verify your connection.");
        copying := copying st |})).
  { unfold handleGenerate, handleGenerate_start.
    rewrite Hblank, handleGenerate_settle_run. cbn [seenDeviceModel seenHistory].
    rewrite Hep. reflexivity. }
  split; [exact Hrun|]. rewrite Hrun. reflexivity.
Qed.

Lemma handleGenerate_failure_holds :
  snd (handleGenerate (fun _ => Throws (ThrownValue (lit "timeout")))
                      sampleClock (typed "Cisco Catalyst 9300"))
  = {| deviceModel := lit "Cisco Catalyst 9300";
       loading := false;
       currentBlueprint := None;
       history := storedHistory;
       error :=
         Some (lit "Unable to reach PakNet AI services. Please verify your connection.");
       copying := false |}.
Proof.
  rewrite (proj1 (handleGenerate_failure
                    (fun _ => Throws (ThrownValue (lit "timeout"))) sampleClock
                    (typed "Cisco Catalyst 9300") (ThrownValue (lit "timeout"))
                    eq_refl eq_refl)).
  reflexivity.
Defined.

(** X22. The main area shows exactly one of its four panels in every state:
    the loading skeleton, the result, the recent list or the empty
    state. *)
Theorem one_panel (st : state) :
  count_occ bool_dec
    [showSkeleton st; showResult st; showRecent st; showEmpty st] true = 1%nat.
Proof.
  unfold showSkeleton, showResult, showRecent, showEmpty.
  destruct (currentBlueprint st), (loading st); cbn [negb andb];
    try reflexivity.
  destruct (length (history st)); reflexivity.
Qed.

(** X23. The mount effect changes no cell but the history, and the history
    only when a stored, non-empty item parses; a missing or empty item is
    not parsed at all, and a failed parse logs one message and leaves the
    state as it was. *)
Theorem loadHistory_cases
    (saved : option jsstring)
    (parse : jsstring -> outcome (list Types.Blueprint)) (st : state) :
  match saved with
  | None | Some [] => loadHistory saved parse st = ([], st)
  | Some (c :: s) =>
      match parse (c :: s) with
      | Returns h => loadHistory saved parse st = ([], setHistory h st)
      | Throws _ =>
          loadHistory saved parse st
          = ([ConsoleErrorMessage (lit "Failed to parse history")], st)
      end
  end
  /\ setHistory (history st) (snd (loadHistory saved parse st)) = st.
Proof.
  destruct st as [dm ld cb h er cp].
  destruct saved as [[|c s]|]; cbn [loadHistory]; try (split; reflexivity).
  destruct (parse (c :: s)); split; reflexivity.
Qed.

End ComponentFacts.

(* ===================================================================== *)
(** ** The component in use                                               *)
(* ===================================================================== *)

Module ComponentInvariant.
Import JS GeminiService Spec Props JSFacts HistoryFacts ServiceFacts ComponentFacts.
Import Component.

Lemma componentInv_mounted (h0 : list Types.Blueprint) :
  componentInv h0 (mounted h0).
Proof.
  unfold componentInv, mounted, initial, setHistory.
  cbn [loading currentBlueprint history length].
  repeat split; try discriminate; try congruence; auto; try lia.
  intros q [].
Qed.

(** A step that leaves the loading flag, the displayed record, the history
    and the running calls alone keeps the invariant. *)
Lemma componentInv_same (h0 : list Types.Blueprint) (st st' : state) (ps : list pending) :
  loading st' = loading st ->
  currentBlueprint st' = currentBlueprint st ->
  history st' = history st ->
  componentInv h0 (st, ps) -> componentInv h0 (st', ps).
Proof.
  unfold componentInv. intros -> -> ->. auto.
Qed.

Lemma app_cons_length_1 {A} (l1 l2 : list A) (x : A) :
  (length (l1 ++ x :: l2) <= 1)%nat -> l1 = [] /\ l2 = [].
Proof.
  rewrite length_app. simpl. intros Hlen.
  destruct l1, l2; simpl in Hlen; try lia. auto.
Qed.

Lemma componentInv_step (h0 : list Types.Blueprint) (s s' : system) :
  componentInv h0 s -> step s s' -> componentInv h0 s'.
Proof.
  intros Hinv Hstep.
  destruct Hstep as
    [st ps v | st ps Hen | st ps1 q ps2 ep ck | st ps | st ps item Hrec Hin
    | st ps Hres | st ps | st ps Hres].
  - (* the input changes *)
    now apply (componentInv_same h0 st).
  - (* a submission *)
    unfold submitDisabled in Hen. apply orb_false_iff in Hen as [Hld Hblank].
    destruct Hinv as (Hlen & Hload & Hseen & Hcb & Hdisp & Hbound & Hnd).
    assert (Hps : ps = []).
    { destruct ps as [|q ps]; [reflexivity|].
      assert (Hne : q :: ps <> []) by discriminate.
      apply Hload in Hne. congruence. }
    subst ps. unfold handleGenerate_start. rewrite Hblank.
    cbn [fst snd started app]. unfold componentInv.
    cbn [loading currentBlueprint history setCurrentBlueprint setError
         setLoading length].
    repeat split; auto; try discriminate.
    intros q [<- | []]. reflexivity.
  - (* a running call settles *)
    destruct Hinv as (Hlen & Hload & Hseen & Hcb & Hdisp & Hbound & Hnd).
    destruct (app_cons_length_1 _ _ _ Hlen) as [-> ->].
    cbn [app] in *.
    assert (Hq : seenHistory q = history st) by (apply Hseen; now left).
    assert (Hnone : currentBlueprint st = None)
      by (apply Hcb, Hload; discriminate).
    rewrite handleGenerate_settle_run.
    assert (Hfail : forall err, componentInv h0 (caught err st, [])).
    { intros err. unfold componentInv, caught.
      cbn [loading currentBlueprint history setError setLoading length].
      split; [lia|]. split; [split; [discriminate | congruence]|].
      split; [intros ? []|]. split; [discriminate|].
      split; [rewrite Hnone; discriminate|].
      split; assumption. }
    assert (Hshown : forall b st',
               loading st' = false ->
               currentBlueprint st' = Some b ->
               history st' = App.saveToHistory (history st) b ->
               componentInv h0 (st', [])).
    { intros b st' Hld Hcur Hhist. unfold componentInv.
      rewrite Hld, Hcur, Hhist. cbn [length].
      split; [lia|]. split; [split; [discriminate | congruence]|].
      split; [intros ? []|]. split; [discriminate|].
      split; [intros b' [= <-]; now left|].
      split.
      - pose proof (saveToHistory_length (history st) b). lia.
      - intros Hnd0. now apply saveToHistory_NoDup, Hnd. }
    destruct (ep (request (seenDeviceModel q))) as [response|err].
    + destruct (randomUUID ck) as [uuid|err]; [|exact (Hfail err)].
      cbv zeta. rewrite Hq.
      destruct (setItem ck _ _) as [u|err]; cbn [snd];
        eapply Hshown; reflexivity.
    + cbn [snd]. unfold componentInv.
      cbn [loading currentBlueprint history setError setLoading length].
      split; [lia|]. split; [split; [discriminate | congruence]|].
      split; [intros ? []|]. split; [discriminate|].
      split; [rewrite Hnone; discriminate|].
      split; assumption.
  - (* the header button *)
    destruct Hinv as (Hlen & Hload & Hseen & Hcb & Hdisp & Hbound & Hnd).
    unfold componentInv, onReset.
    cbn [loading currentBlueprint history setCurrentBlueprint setDeviceModel].
    repeat split; auto; try discriminate; apply Hload.
  - (* a history card *)
    destruct Hinv as (Hlen & Hload & Hseen & Hcb & Hdisp & Hbound & Hnd).
    unfold showRecent in Hrec.
    destruct (currentBlueprint st) eqn:Hcur; [discriminate|].
    apply andb_true_iff in Hrec as [Hld _]. apply negb_true_iff in Hld.
    unfold componentInv, onOpen. cbn [snd].
    cbn [loading currentBlueprint history setCurrentBlueprint setDeviceModel].
    repeat split; auto; try apply Hload; try congruence.
  - (* the copy button *)
    unfold handleCopy. destruct (currentBlueprint st); cbn [snd];
      [now apply (componentInv_same h0 st) | exact Hinv].
  - (* the copy timer *)
    now apply (componentInv_same h0 st).
  - (* the print button *)
    exact Hinv.
Qed.

Lemma reachable_componentInv (h0 : list Types.Blueprint) (s : system) :
  reachable h0 s -> componentInv h0 s.
Proof.
  induction 1 as [|s s' _ IH Hstep].
  - apply componentInv_mounted.
  - exact (componentInv_step h0 s s' IH Hstep).
Qed.

(** X24. Calls of [handleGenerate] never overlap: in every state the
    component can reach, at most one call is running, one is running
    exactly while [loading] is set, and the history that call closed over
    is the current history, so its result is added to an up-to-date
    list. *)
Theorem one_call_at_a_time
    (h0 : list Types.Blueprint) (st : state) (ps : list pending) :
  reachable h0 (st, ps) ->
  (length ps <= 1)%nat
  /\ (loading st = true <-> ps <> [])
  /\ (forall q, In q ps -> seenHistory q = history st).
Proof.
  intros Hreach. apply reachable_componentInv in Hreach.
  destruct Hreach as (Hlen & Hload & Hseen & _). auto.
Qed.

(** X25. In every state the component can reach, a displayed record is one
    of the records of the history, and nothing is displayed while
    loading. *)
Theorem displayed_record_in_history
    (h0 : list Types.Blueprint) (st : state) (ps : list pending) :
  reachable h0 (st, ps) ->
  (forall b, currentBlueprint st = Some b -> In b (history st))
  /\ (loading st = true -> currentBlueprint st = None).
Proof.
  intros Hreach. apply reachable_componentInv in Hreach.
  destruct Hreach as (_ & _ & _ & Hcb & Hdisp & _). auto.
Qed.

(** X26. In every state the component can reach from a loaded history, the
    history has at most ten entries, or no more than were loaded if that
    was more, and no two entries share a device model when the loaded
    history had none that did. *)
Theorem history_bounded_in_use
    (h0 : list Types.Blueprint) (st : state) (ps : list pending) :
  reachable h0 (st, ps) ->
  (length (history st) <= Nat.max 10 (length h0))%nat
  /\ (NoDup (models h0) -> NoDup (models (history st))).
Proof.
  intros Hreach. apply reachable_componentInv in Hreach.
  destruct Hreach as (_ & _ & _ & _ & _ & Hbound & Hnd). auto.
Qed.

(** A session: the history is loaded, a device model is typed, the form
    is submitted, and the endpoint answers. *)
Lemma submitted_reachable :
  reachable storedHistory
    (snd (handleGenerate_start (typed "FortiGate 60F")),
     [] ++ started (fst (handleGenerate_start (typed "FortiGate 60F")))).
Proof.
  apply (reach_step storedHistory (typed "FortiGate 60F", [])).
  - apply (reach_step storedHistory (mounted storedHistory)).
    + apply reach_mounted.
    + exact (step_change (setHistory storedHistory initial) []
                         (lit "FortiGate 60F")).
  - exact (step_submit (typed "FortiGate 60F") [] eq_refl).
Defined.

Lemma answered_reachable :
  reachable storedHistory
    (snd (handleGenerate
            (fun _ => Returns {| text := Some (lit "# Device Overview") |})
            sampleClock (typed "FortiGate 60F")),
     []).
Proof.
  exact (reach_step storedHistory _ _ submitted_reachable
           (step_settle
              (snd (handleGenerate_start (typed "FortiGate 60F"))) []
              {| seenDeviceModel := lit "FortiGate 60F";
                 seenHistory := storedHistory |} []
              (fun _ => Returns {| text := Some (lit "# Device Overview") |})
              sampleClock)).
Defined.

Lemma one_call_at_a_time_holds :
  let st := snd (handleGenerate_start (typed "FortiGate 60F")) in
  let ps := [{| seenDeviceModel := lit "FortiGate 60F";
                seenHistory := storedHistory |}] in
  (length ps <= 1)%nat
  /\ (loading st = true <-> ps <> [])
  /\ (forall q, In q ps -> seenHistory q = history st).
Proof.
  exact (one_call_at_a_time storedHistory _ _ submitted_reachable).
Defined.

Lemma displayed_record_in_history_holds :
  let st := snd (handleGenerate
                   (fun _ => Returns {| text := Some (lit "# Device Overview") |})
                   sampleClock (typed "FortiGate 60F")) in
  (forall b, currentBlueprint st = Some b -> In b (history st))
  /\ (loading st = true -> currentBlueprint st = None).
Proof.
  exact (displayed_record_in_history storedHistory _ _ answered_reachable).
Defined.

Lemma history_bounded_in_use_holds :
  let st := snd (handleGenerate
                   (fun _ => Returns {| text := Some (lit "# Device Overview") |})
                   sampleClock (typed "FortiGate 60F")) in
  (length (history st) <= Nat.max 10 (length storedHistory))%nat
  /\ (NoDup (models storedHistory) -> NoDup (models (history st))).
Proof.
  exact (history_bounded_in_use storedHistory _ _ answered_reachable).
Defined.

Lemma Forall_saveToHistory (P : Types.Blueprint -> Prop)
    (seen : list Types.Blueprint) (b : Types.Blueprint) :
  P b -> Forall P seen -> Forall P (App.saveToHistory seen b).
Proof.
  intros Hb Hseen. unfold App.saveToHistory. constructor; [exact Hb|].
  apply Forall_firstn. rewrite Forall_forall in *.
  intros e He. apply filter_In in He as [He _]. auto.
Qed.

Lemma recordsInv_step (s s' : system) :
  recordsInv s -> step s s' -> recordsInv s'.
Proof.
  intros Hinv Hstep.
  destruct Hstep as
    [st ps v | st ps Hen | st ps1 q ps2 ep ck | st ps | st ps item Hrec Hin
    | st ps Hres | st ps | st ps Hres];
    try exact Hinv.
  - (* a submission *)
    destruct Hinv as [Hh Hps]. unfold handleGenerate_start.
    destruct (isBlank (deviceModel st)) eqn:Hblank; cbn [fst snd started].
    + rewrite app_nil_r. now split.
    + split; [exact Hh|]. apply Forall_app. split; [exact Hps|].
      constructor; [|constructor]. now split.
  - (* a running call settles *)
    destruct Hinv as [Hh Hps].
    apply Forall_app in Hps as [Hps1 Hps2].
    inversion Hps2 as [|? ? [Hq Hseen] Hps2']; subst.
    assert (Hrest : Forall
                      (fun q => isBlank (seenDeviceModel q) = false
                                /\ Forall wellFormed (seenHistory q))
                      (ps1 ++ ps2))
      by (apply Forall_app; now split).
    rewrite handleGenerate_settle_run.
    destruct (ep (request (seenDeviceModel q))) as [response|err];
      [|now split].
    destruct (randomUUID ck) as [uuid|err]; [|now split].
    cbv zeta.
    assert (Hnew : Forall wellFormed
                     (App.saveToHistory (seenHistory q)
                        {| Types.id := uuid;
                           Types.deviceModel := seenDeviceModel q;
                           Types.content :=
                             or_else (text response)
                                     (lit "Failed to generate blueprint content.");
                           Types.timestamp := now ck |})).
    { apply Forall_saveToHistory; [|exact Hseen].
      split; [exact Hq|]. cbn [Types.content].
      destruct (text response) as [[|c t]|]; simpl; discriminate. }
    destruct (setItem ck _ _) as [u|err]; cbn [snd]; now split.
  - (* the copy button *)
    unfold handleCopy. destruct (currentBlueprint st); exact Hinv.
Qed.

(** X27. Every record a submission adds has a device model that is not
    blank and a text that is not empty: in every state the component can
    reach from a loaded history of such records, the history holds only
    such records. *)
Theorem records_well_formed
    (h0 : list Types.Blueprint) (st : state) (ps : list pending) :
  Forall wellFormed h0 ->
  reachable h0 (st, ps) ->
  Forall wellFormed (history st).
Proof.
  intros Hh0 Hreach.
  enough (Hinv : recordsInv (st, ps)) by exact (proj1 Hinv).
  induction Hreach as [|s s' _ IH Hstep].
  - split; [exact Hh0 | constructor].
  - exact (recordsInv_step s s' IH Hstep).
Qed.

Lemma records_well_formed_holds :
  Forall wellFormed
    (history (snd (handleGenerate
                     (fun _ => Returns {| text := Some (lit "# Device Overview") |})
                     sampleClock (typed "FortiGate 60F")))).
Proof.
  refine (records_well_formed storedHistory _ _ _ answered_reachable).
  repeat constructor; discriminate.
Defined.

End ComponentInvariant.
